(** * RevoltDevBot: the command router and the developer console

    A shallow embedding of [revoltbot/dev.py] (pagination, redaction, the
    [eval] / [debug] console) and of [revoltbot/__main__.py] (prefix
    validation, [send], [on_message]).

    Python [str] values are sequences of Unicode code points; they are
    modelled as lists of code points.  Python [int] values are [Z]. *)

From Stdlib Require Import List ZArith NArith Bool Lia Ascii String.
Import ListNotations.

#[local] Open Scope Z_scope.

(** ** Python strings *)

Module PyStr.

Definition char := N.
Definition str := list char.

(** A literal written with ASCII characters. *)
Fixpoint lit (s : string) : str :=
  match s with
  | EmptyString => []
  | String a r => N_of_ascii a :: lit r
  end.

Definition len (s : str) : Z := Z.of_nat (List.length s).

Definition char_eqb (a b : char) : bool := N.eqb a b.

Fixpoint str_eqb (a b : str) : bool :=
  match a, b with
  | [], [] => true
  | x :: a', y :: b' => char_eqb x y && str_eqb a' b'
  | _, _ => false
  end.

(** [str.isspace] on one code point: the code points the interpreter treats
    as whitespace in [str.split], [str.strip] and the [\s] class. *)
Definition isspace (c : char) : bool :=
  let between lo hi := (N.leb lo c && N.leb c hi)%bool in
  (between 9 13 || between 28 32 || N.eqb c 133 || N.eqb c 160
   || N.eqb c 5760 || between 8192 8202 || N.eqb c 8232 || N.eqb c 8233
   || N.eqb c 8239 || N.eqb c 8287 || N.eqb c 12288)%N%bool.

(** [s.startswith(p)] *)
Fixpoint startswith (s p : str) : bool :=
  match p, s with
  | [], _ => true
  | x :: p', y :: s' => char_eqb x y && startswith s' p'
  | _ :: _, [] => false
  end.

(** [s.endswith(p)] *)
Definition endswith (s p : str) : bool := startswith (rev s) (rev p).

(** Slice bounds: a negative index counts from the end and is clipped at 0;
    an index beyond the end is clipped by [firstn] / [skipn]. *)
Definition slice_index (s : str) (k : Z) : nat :=
  Z.to_nat (if k <? 0 then Z.max 0 (len s + k) else k).

(** [s[:k]] *)
Definition slice_to (s : str) (k : Z) : str := firstn (slice_index s k) s.

(** [s[k:]] *)
Definition slice_from (s : str) (k : Z) : str := skipn (slice_index s k) s.

(** The candidates of a backward search, highest first: positions
    [lo + n - 1], ..., [lo]. *)
Fixpoint rfind_scan (s sub : str) (lo n : nat) : Z :=
  match n with
  | O => -1
  | S k =>
      if startswith (skipn (lo + k) s) sub then Z.of_nat (lo + k)
      else rfind_scan s sub lo k
  end.

(** [s.rfind(sub, start, end)]: the bounds are adjusted as for a slice, the
    search fails when the window is shorter than [sub], and otherwise the
    highest position in [start, end - len(sub)] where [sub] occurs is
    returned, or [-1]. *)
Definition rfind (s sub : str) (start end_ : Z) : Z :=
  let l := len s in
  let e := if end_ >? l then l
           else if end_ <? 0 then Z.max 0 (end_ + l) else end_ in
  let b := if start <? 0 then Z.max 0 (start + l) else start in
  if e - b <? len sub then -1
  else rfind_scan s sub (Z.to_nat b) (Z.to_nat (e - b - len sub + 1)).

Fixpoint dropwhile (p : char -> bool) (s : str) : str :=
  match s with
  | [] => []
  | c :: s' => if p c then dropwhile p s' else s
  end.

Fixpoint takewhile (p : char -> bool) (s : str) : str :=
  match s with
  | [] => []
  | c :: s' => if p c then c :: takewhile p s' else []
  end.

(** [s.strip(chars)] for a predicate describing [chars]. *)
Definition strip_with (p : char -> bool) (s : str) : str :=
  rev (dropwhile p (rev (dropwhile p s))).

(** [s.strip()] *)
Definition strip (s : str) : str := strip_with isspace s.

Definition notspace (c : char) : bool := negb (isspace c).

(** [s.split()]: the maximal runs of non-whitespace characters.  [fuel]
    bounds the number of runs; [split] gives it the length of the text. *)
Fixpoint split_runs (fuel : nat) (s : str) : list str :=
  match fuel with
  | O => []
  | S f =>
      match dropwhile isspace s with
      | [] => []
      | t => takewhile notspace t :: split_runs f (dropwhile notspace t)
      end
  end.

Definition split (s : str) : list str := split_runs (List.length s) s.

(** [s.split(maxsplit=1)]: the first run, then the rest of the text with its
    leading whitespace skipped, when something is left of it. *)
Definition split_maxsplit1 (s : str) : list str :=
  match dropwhile isspace s with
  | [] => []
  | t =>
      takewhile notspace t ::
      match dropwhile isspace (dropwhile notspace t) with
      | [] => []
      | r => [r]
      end
  end.

(** [max] of a sequence of integers; [None] is the [ValueError] raised on
    an empty sequence. *)
Definition py_max (xs : list Z) : option Z :=
  match xs with
  | [] => None
  | x :: r => Some (fold_left Z.max r x)
  end.

(** [next((x for x in xs if x > 0), -1)] *)
Fixpoint next_positive (xs : list Z) : Z :=
  match xs with
  | [] => -1
  | x :: r => if x >? 0 then x else next_positive r
  end.

(** [text * n] *)
Fixpoint repeat_str (s : str) (n : nat) : str :=
  match n with
  | O => []
  | S k => s ++ repeat_str s k
  end.

(** The text occurs somewhere in [s]. *)
Fixpoint occurs (sub s : str) : bool :=
  startswith s sub ||
  match s with
  | [] => false
  | _ :: s' => occurs sub s'
  end.

End PyStr.

Import PyStr.

(** ** [pagify] *)

Module Pagify.

(** How a run of the generator stands after a number of loop iterations. *)
Inductive status :=
| Exhausted            (* the generator returned *)
| ValueError           (* [max] of an empty sequence of delimiters *)
| Suspended (in_text : str). (* still inside the [while] loop *)

Section Config.

Variable delims : list str.
Variable priority : bool.
Variable shorten_by : Z.
Variable page_length : Z.

(** [page_length -= shorten_by] *)
Definition page : Z := page_length - shorten_by.

(** The split point of one iteration; [None] when [max] raises. *)
Definition closest_delim (in_text : str) : option Z :=
  let this_page_len := page in
  let found := map (fun d => rfind in_text d 1 this_page_len) delims in
  let chosen :=
    if priority then Some (next_positive found) else py_max found in
  match chosen with
  | None => None
  | Some c => Some (if negb (c =? -1) then c else this_page_len)
  end.

(** What one backward search can answer when the text is longer than a
    non-negative page: no match, or a position from 1 up to the page. *)
Definition search_result (z : Z) : Prop := z = -1 \/ 1 <= z <= page.

(** [len(to_send.strip()) > 0] *)
Definition nonblank (s : str) : bool := len (strip s) >? 0.

Definition emit (s : str) : list str := if nonblank s then [s] else [].

(** The chunks yielded within [fuel] evaluations of the loop condition,
    and where the generator stands then. *)
Fixpoint pagify (fuel : nat) (in_text : str) : list str * status :=
  match fuel with
  | O => ([], Suspended in_text)
  | S f =>
      if len in_text >? page then
        match closest_delim in_text with
        | None => ([], ValueError)
        | Some c =>
            let to_send := slice_to in_text c in
            let '(later, st) := pagify f (slice_from in_text c) in
            (emit to_send ++ later, st)
        end
      else (emit in_text, Exhausted)
  end.

(** The same walk, keeping every segment it passes: [(true, s)] for a
    yielded chunk, [(false, s)] for a segment that was skipped. *)
Definition segment (s : str) : bool * str := (nonblank s, s).

Fixpoint pagify_walk (fuel : nat) (in_text : str)
  : list (bool * str) * status :=
  match fuel with
  | O => ([], Suspended in_text)
  | S f =>
      if len in_text >? page then
        match closest_delim in_text with
        | None => ([], ValueError)
        | Some c =>
            let '(later, st) := pagify_walk f (slice_from in_text c) in
            (segment (slice_to in_text c) :: later, st)
        end
      else ([segment in_text], Exhausted)
  end.

Definition yielded (segs : list (bool * str)) : list str :=
  map snd (filter fst segs).

Definition skipped (segs : list (bool * str)) : list str :=
  map snd (filter (fun sg => negb (fst sg)) segs).

(** The run ends: some number of iterations leaves the loop. *)
Definition terminates (text : str) : Prop :=
  exists fuel, forall rest, snd (pagify fuel text) <> Suspended rest.

(** The run ends normally and the segments it walked spell the input. *)
Definition reconstructs (text : str) : Prop :=
  exists fuel,
    snd (pagify_walk fuel text) = Exhausted /\
    List.concat (map snd (fst (pagify_walk fuel text))) = text.

End Config.

(** The defaults of the signature: [delims=["\n"]], [priority=False],
    [shorten_by=12], [page_length=2000]. *)
Definition newline : str := [10%N].
Definition default_delims : list str := [newline].
Definition pagify_default (text : str) : list str :=
  fst (pagify default_delims false 12 2000 (S (List.length text)) text).

End Pagify.


Import Pagify.

(** ** The developer console ([class Dev]) and the command router *)

Module Console.

(** *** Python values, as far as the console looks at them *)

Record syntax_error := {
  se_class : str;          (* [type(e).__name__] *)
  se_str : str;            (* [str(e)] *)
  se_text : option str;    (* [e.text] *)
  se_offset : option Z     (* [e.offset]; [None] is Python's [None] *)
}.

(** Every object carries the text [str()] gives for it.  Awaiting an
    awaitable gives an object, or raises a [SyntaxError] or some other
    [Exception]. *)
Inductive pyobj :=
| PyNone
| PyObj (text : str)
| PyAwaitable (text : str) (outcome : awaited)
with awaited :=
| Resolves (value : pyobj)
| Throws (traceback : str)
| ThrowsSyntaxError (e : syntax_error).

(** What an [await] can raise into [debug]. *)
Inductive raised :=
| RaisedException (traceback : str)
| RaisedSyntaxError (e : syntax_error).

Definition py_str (o : pyobj) : str :=
  match o with
  | PyNone => lit "None"
  | PyObj t => t
  | PyAwaitable t _ => t
  end.

Definition is_none (o : pyobj) : bool :=
  match o with PyNone => true | _ => false end.

(** [inspect.isawaitable] *)
Definition isawaitable (o : pyobj) : bool :=
  match o with PyAwaitable _ _ => true | _ => false end.

(** Awaitables nested in one another: awaiting the outermost gives the
    next one, awaiting the innermost gives [v]. *)
Fixpoint layers (texts : list str) (v : pyobj) : pyobj :=
  match texts with
  | [] => v
  | t :: r => PyAwaitable t (Resolves (layers r v))
  end.

Record message := {
  author_id : str;
  content : option str;
  channel_id : str
}.

(** The entries of [get_environment] that change between invocations. *)
Record environment := {
  env_last : pyobj;        (* ["_"] *)
  env_message : message    (* ["event"], ["message"] *)
}.

(** *** The interpreter the console drives *)

Inductive call_outcome :=
| Returned (printed : str) (result : pyobj)
| Failed (printed : str) (traceback : str)   (* an [Exception] *)
| CallEscaped (exn : str).                     (* any other [BaseException] *)

Inductive exec_outcome :=
| ExecSyntaxError (e : syntax_error)
| ExecDefined (func : call_outcome).

Inductive eval_outcome :=
| EvalSyntaxError (e : syntax_error)
| EvalRaised (traceback : str)                 (* an [Exception] *)
| EvalEscaped (exn : str)
| EvalValue (value : pyobj).

(** *** Effects *)

Inductive effect :=
| Post (channel : str) (json_content : str)  (* the REST request of [send] *)
| Close                                       (* [client.close()] *)
| Uncaught (exn : str).                       (* left to the excepthook *)

(** [compile] + [exec] + [await func()] under [redirect_stdout] for
    [eval]; [compile] + [eval] for [debug]; [textwrap.indent].

    The code that is run has the live [client] in its environment, so it
    can itself post and close the connection: [exec_effects] is what the
    body of [func] did, in order, while [await func()] ran, and
    [eval_effects] what the evaluation of the expression and the awaiting
    of its value did. *)
Record interpreter := {
  exec_source : str -> environment -> exec_outcome;
  exec_effects : str -> environment -> list effect;
  eval_source : str -> environment -> eval_outcome;
  eval_effects : str -> environment -> list effect;
  textwrap_indent : str -> str -> str
}.

Record world := {
  last_result : pyobj;      (* [dev._last_result] *)
  trace : list effect       (* what has happened, oldest first *)
}.

Definition record (e : effect) (w : world) : world :=
  {| last_result := last_result w; trace := trace w ++ [e] |}.

(** The effects of code that was run, added in the order they happened. *)
Definition perform (es : list effect) (w : world) : world :=
  {| last_result := last_result w; trace := trace w ++ es |}.

Definition set_last_result (o : pyobj) (w : world) : world :=
  {| last_result := o; trace := trace w |}.

(** [client._authentication_data] *)
Record authentication_data := {
  token : option str;
  session_token : option str
}.

Record config := {
  PREFIX : str;
  owner_id : str;           (* [client._state.user.bot.owner_id] *)
  auth : authentication_data
}.

(** *** [re.sub] with an escaped, hence literal, pattern *)

Definition spend (budget : option nat) : option nat :=
  match budget with
  | Some n => Some (Nat.pred n)
  | None => None
  end.

(** Leftmost non-overlapping occurrences are replaced while [budget] lasts
    ([None]: no limit); [skip] characters of a match are still to be
    passed over.  An empty pattern matches before every character and at
    the end. *)
Fixpoint sub_scan (pat repl : str) (budget : option nat) (skip : nat)
  (s : str) {struct s} : str :=
  match skip with
  | S k =>
      match s with
      | [] => []
      | _ :: s' => sub_scan pat repl budget k s'
      end
  | O =>
      match budget with
      | Some O => s
      | _ =>
          if startswith s pat then
            repl ++
            match s with
            | [] => []
            | c :: s' =>
                match pat with
                | [] => c :: sub_scan pat repl (spend budget) 0 s'
                | _ :: p' =>
                    sub_scan pat repl (spend budget) (List.length p') s'
                end
            end
          else
            match s with
            | [] => []
            | c :: s' => c :: sub_scan pat repl budget 0 s'
            end
      end
  end.

(** [re.sub(re.escape(pat), repl, string, count)] with the default
    [flags=0]; [count = 0] replaces every occurrence. *)
Definition re_sub_escaped (pat repl string : str) (count : nat) : str :=
  sub_scan pat repl (match count with O => None | n => Some n end) 0 string.

(** [re.I], the integer value of the flag [re.IGNORECASE]. *)
Definition re_I : nat := 2.

Definition EXPUNGED : str := lit "[EXPUNGED]".

(** *** Static helpers of [Dev] *)

Definition fence : str := lit "```".

Definition next_isspace (s : str) : bool :=
  match s with
  | c :: _ => isspace c
  | [] => false
  end.

(** [START_CODE_BLOCK_RE.sub("", content)]: at the start of the text, the
    fence with [python] or [py] when whitespace follows, else the bare
    fence. *)
Definition strip_start_code_block (content : str) : str :=
  if startswith content (lit "```python") && next_isspace (skipn 9 content)
  then skipn 9 content
  else if startswith content (lit "```py") && next_isspace (skipn 5 content)
  then skipn 5 content
  else if startswith content fence then skipn 3 content
  else content.

Definition backtick_space_newline (c : char) : bool :=
  (N.eqb c 96 || N.eqb c 32 || N.eqb c 10)%bool.

Definition cleanup_code (content : str) : str :=
  if startswith content fence && endswith content fence
  then slice_to (strip_start_code_block content) (-3)
  else strip_with backtick_space_newline content.

(** [for i in range(n)] of [maybe_await]. *)
Fixpoint maybe_await_loop (n : nat) (coro : pyobj) : pyobj + raised :=
  match n with
  | O => inl coro
  | S k =>
      match coro with
      | PyAwaitable _ (Resolves v) => maybe_await_loop k v
      | PyAwaitable _ (Throws tb) => inr (RaisedException tb)
      | PyAwaitable _ (ThrowsSyntaxError e) => inr (RaisedSyntaxError e)
      | _ => inl coro
      end
  end.

Definition maybe_await (coro : pyobj) : pyobj + raised :=
  maybe_await_loop 2 coro.

(** [None] is the [ValueError] of [str.format]: with [e.text] set, the
    caret is right-aligned in a field of width [e.offset], and a width
    that is [None] or negative is not a format specifier. *)
Definition get_syntax_error (e : syntax_error) : option str :=
  match se_text e with
  | None => Some (se_class e ++ lit ": " ++ se_str e)
  | Some text =>
      match se_offset e with
      | None => None
      | Some offset =>
          if offset <? 0 then None
          else
            Some (text ++ newline
                  ++ repeat 32%N (Z.to_nat (offset - 1)) ++ lit "^"
                  ++ newline
                  ++ se_class e ++ lit ": " ++ se_str e)
      end
  end.

Section Bot.

Variable cfg : config.
Variable interp : interpreter.

Definition smiley : str := [128515%N].

(** [send] of [__main__]; the nonce of the request is left out. *)
Definition send (channel : str) (text : str) (w : world) : world :=
  record (Post channel (smiley ++ newline ++ text ++ newline ++ smiley)) w.

Definition send_blocks (channel : str) (text : str) (w : world) : world :=
  fold_left
    (fun w' page =>
       send channel (lit "```py" ++ newline ++ page ++ newline ++ fence) w')
    (pagify_default text) w.

(** [None] is the failed [assert isinstance(token, str)]. *)
Definition sanitize_output (input_ : str) : option str :=
  let auth_data := auth cfg in
  let tok :=
    match token auth_data with
    | None => session_token auth_data
    | Some t => Some t
    end in
  match tok with
  | None => None
  | Some t => Some (re_sub_escaped t EXPUNGED input_ re_I)
  end.

Definition get_environment (msg : message) (w : world) : environment :=
  {| env_last := last_result w; env_message := msg |}.

Definition send_sanitized (channel : str) (text : str) (w : world) : world :=
  match sanitize_output text with
  | None => record (Uncaught (lit "AssertionError")) w
  | Some clean => send_blocks channel clean w
  end.

Definition to_compile (body : str) : str :=
  lit "async def func():" ++ newline
  ++ textwrap_indent interp (cleanup_code body) (lit "  ").

(** [await self.send_blocks(channel_id, self.get_syntax_error(e))] in an
    [except SyntaxError] clause: a [ValueError] of the formatting leaves
    the handler. *)
Definition send_syntax_error (channel : str) (e : syntax_error) (w : world)
  : world :=
  match get_syntax_error e with
  | None => record (Uncaught (lit "ValueError")) w
  | Some text => send_blocks channel text w
  end.

Definition eval (channel : str) (body : str) (msg : message) (w : world)
  : world :=
  let env := get_environment msg w in
  let ran := perform (exec_effects interp (to_compile body) env) w in
  let report (result : pyobj) (printed : str) :=
    if negb (is_none result) then
      send_sanitized channel (printed ++ py_str result)
        (set_last_result result ran)
    else send_sanitized channel printed ran in
  match exec_source interp (to_compile body) env with
  | ExecSyntaxError e => send_syntax_error channel e w
  | ExecDefined (Returned out result) => report result out
  | ExecDefined (Failed out tb) => report PyNone (out ++ tb)
  | ExecDefined (CallEscaped exn) => record (Uncaught exn) ran
  end.

Definition debug (channel : str) (body : str) (msg : message) (w : world)
  : world :=
  let env := get_environment msg w in
  let code := cleanup_code body in
  let ran := perform (eval_effects interp code env) w in
  match eval_source interp code env with
  | EvalSyntaxError e => send_syntax_error channel e ran
  | EvalRaised tb => send_blocks channel tb ran
  | EvalEscaped exn => record (Uncaught exn) ran
  | EvalValue v =>
      match maybe_await v with
      | inr (RaisedSyntaxError e) => send_syntax_error channel e ran
      | inr (RaisedException tb) => send_blocks channel tb ran
      | inl result =>
          send_sanitized channel (py_str result)
            (set_last_result result ran)
      end
  end.

Definition on_message (msg : message) (w : world) : world :=
  if negb (str_eqb (author_id msg) (owner_id cfg)) then w
  else
    match content msg with
    | None => w
    | Some text =>
        match split_maxsplit1 text with
        | [] => w
        | command :: rest =>
            let body := match rest with [b] => b | _ => [] end in
            if str_eqb command (PREFIX cfg ++ lit "ping") then
              send (channel_id msg) (lit "Pong!") w
            else if str_eqb command (PREFIX cfg ++ lit "shutdown") then
              record Close (send (channel_id msg) (lit "Shutting down...") w)
            else if (len body =? 0) then w
            else if str_eqb command (PREFIX cfg ++ lit "eval") then
              eval (channel_id msg) body msg w
            else if str_eqb command (PREFIX cfg ++ lit "debug") then
              debug (channel_id msg) body msg w
            else w
        end
    end.

End Bot.

(** *** Start-up: lines 20-22 of [__main__] *)

Inductive startup :=
| KeyError                   (* [REVOLTBOT_PREFIX] is not set *)
| RuntimeError (reason : str)
| Proceeds (prefix : str).

Definition load_prefix (environ_prefix : option str) : startup :=
  match environ_prefix with
  | None => KeyError
  | Some p =>
      if negb (List.length (split p) =? 1)%nat
      then RuntimeError (lit "can't have prefix with spaces")
      else Proceeds p
  end.

Definition has_whitespace (s : str) : bool := existsb isspace s.

End Console.

(** ** [better_vars] *)

Module Introspection.

Import Console.

(** A [dict]: keys in insertion order, each once. *)
Definition dict := list (str * pyobj).

(** [d[k] = v]: an existing key keeps its place and takes the value, a
    new key goes to the end. *)
Fixpoint dict_set (k : str) (v : pyobj) (d : dict) : dict :=
  match d with
  | [] => [(k, v)]
  | (k', v') :: r =>
      if str_eqb k' k then (k', v) :: r else (k', v') :: dict_set k v r
  end.

(** [d.get(k)] *)
Fixpoint dict_get (k : str) (d : dict) : option pyobj :=
  match d with
  | [] => None
  | (k', v) :: r => if str_eqb k' k then Some v else dict_get k r
  end.

(** What [better_vars] asks of an object: its [__dict__], if it has one;
    for each class of [obj.__class__.__mro__] the names
    [getattr(base, "__slots__", ())] gives; and [getattr(obj, name,
    MISSING)], with [None] for [MISSING]. *)
Record instance := {
  inst_dict : option dict;
  inst_slots : list (list str);
  inst_getattr : str -> option pyobj
}.

(** [vars(obj)], else, on its [TypeError], the comprehension over the
    slots of every base that have a value. *)
Definition better_vars (obj : instance) : dict :=
  match inst_dict obj with
  | Some d => d
  | None =>
      fold_left
        (fun acc attr_name =>
           match inst_getattr obj attr_name with
           | Some value => dict_set attr_name value acc
           | None => acc
           end)
        (List.concat (inst_slots obj)) []
  end.

End Introspection.

(** ** What goes over the wire *)

Module Wire.

Import Console.

(** The text [send_blocks] hands to [send] for a page. *)
Definition code_block (page : str) : str :=
  lit "```py" ++ newline ++ page ++ newline ++ fence.

(** The [content] field of the request [send] makes for a text. *)
Definition json_content (text : str) : str :=
  smiley ++ newline ++ text ++ newline ++ smiley.

(** The token [sanitize_output] looks for. *)
Definition active_token (a : authentication_data) : option str :=
  match token a with
  | None => session_token a
  | Some t => Some t
  end.

(** The four command words after a prefix. *)
Definition command_words : list str :=
  [lit "ping"; lit "shutdown"; lit "eval"; lit "debug"].

End Wire.

(** ** Sample inputs *)

Module Samples.

Import Console.

(** ["a\n" * 2000] *)
Definition a_newline : str := lit "a" ++ newline.
Definition a_newline_2000 : str := repeat_str a_newline 2000.

(** The three pages of that text under the default settings. *)
Definition first_page : str := repeat_str a_newline 993 ++ lit "a".
Definition second_page : str := newline ++ repeat_str a_newline 992 ++ lit "a".
Definition last_page : str := newline ++ repeat_str a_newline 13.

Definition comma_space : list str := [lit ","; lit " "].
Definition words : str := lit "ab,cd efgh    ijk".

(** A bot token [abc], the prefix [!] and an owner. *)
Definition bot_auth : authentication_data :=
  {| token := Some (lit "abc"); session_token := None |}.

Definition bang : config :=
  {| PREFIX := lit "!"; owner_id := lit "01OWNER"; auth := bot_auth |}.

(** The same with a space after the [!]. *)
Definition bang_space : config :=
  {| PREFIX := lit "! "; owner_id := lit "01OWNER"; auth := bot_auth |}.

(** An interpreter that answers every source the same way. *)
Definition constant_interpreter (call : call_outcome) (value : pyobj)
  : interpreter :=
  {| exec_source := fun _ _ => ExecDefined call;
     exec_effects := fun _ _ => [];
     eval_source := fun _ _ => EvalValue value;
     eval_effects := fun _ _ => [];
     textwrap_indent := fun text prefix => prefix ++ text |}.

(** [pass] returns [None] with nothing printed. *)
Definition quiet : interpreter :=
  constant_interpreter (Returned [] PyNone) PyNone.

Definition from_owner (text : str) : message :=
  {| author_id := lit "01OWNER"; content := Some text;
     channel_id := lit "01CHAN" |}.

Definition from_stranger (text : str) : message :=
  {| author_id := lit "01OTHER"; content := Some text;
     channel_id := lit "01CHAN" |}.

(** A console that remembers the value [1] and has done nothing yet. *)
Definition fresh : world := {| last_result := PyObj (lit "1"); trace := [] |}.

Definition forty_two : pyobj := PyObj (lit "42").
Definition three_layers : pyobj :=
  layers [lit "<coroutine a>"; lit "<coroutine b>"; lit "<coroutine c>"]
    forty_two.

End Samples.

(** ** More sample inputs *)

Module MoreSamples.

Import Console Introspection Samples.

(** A user session instead of a bot token. *)
Definition user_session : config :=
  {| PREFIX := lit "!"; owner_id := lit "01OWNER";
     auth := {| token := None; session_token := Some (lit "s3cret") |} |}.

(** An object of a class with [__slots__ = ("x", "y")] whose base has
    [__slots__ = ("x",)], with [y] never set. *)
Definition slotted : instance :=
  {| inst_dict := None;
     inst_slots := [[lit "x"; lit "y"]; [lit "x"]; []];
     inst_getattr := fun name =>
       if str_eqb name (lit "x") then Some (PyObj (lit "1")) else None |}.

(** [await client.close()]: the code closes the connection itself, prints
    nothing and gives [None]. *)
Definition closes : interpreter :=
  {| exec_source := fun _ _ => ExecDefined (Returned [] PyNone);
     exec_effects := fun _ _ => [Close];
     eval_source := fun _ _ => EvalValue PyNone;
     eval_effects := fun _ _ => [Close];
     textwrap_indent := fun text prefix => prefix ++ text |}.

(** Code that posts to another channel, prints [out:] and returns 42. *)
Definition posts_and_returns : interpreter :=
  {| exec_source := fun _ _ =>
       ExecDefined (Returned (lit "out:") (PyObj (lit "42")));
     exec_effects := fun _ _ => [Post (lit "02CHAN") (lit "hi")];
     eval_source := fun _ _ => EvalRaised (lit "Traceback: abc");
     eval_effects := fun _ _ => [Post (lit "02CHAN") (lit "hi")];
     textwrap_indent := fun text prefix => prefix ++ text |}.

End MoreSamples.

(** * Properties *)

(** ** Strings *)

Module PyStrFacts.

Lemma str_eqb_eq (a b : str) : str_eqb a b = true <-> a = b.
Proof.
  revert b; induction a as [|x a IH]; intros [|y b]; simpl;
    try (split; [discriminate | discriminate]); try tauto.
  unfold char_eqb. rewrite andb_true_iff, N.eqb_eq, IH.
  split; [intros [-> ->]; reflexivity | intros H; injection H; auto].
Qed.

Lemma str_eqb_refl (a : str) : str_eqb a a = true.
Proof. apply str_eqb_eq; reflexivity. Qed.

Lemma str_eqb_neq (a b : str) : a <> b -> str_eqb a b = false.
Proof.
  intros H. destruct (str_eqb a b) eqn:E; [|reflexivity].
  apply str_eqb_eq in E. contradiction.
Qed.

Lemma len_nonneg (s : str) : 0 <= len s.
Proof. unfold len; lia. Qed.

Lemma len_app (a b : str) : len (a ++ b) = len a + len b.
Proof. unfold len. rewrite length_app. lia. Qed.

(** A slice and its complement spell the text, whatever the index. *)
Lemma slice_to_from (s : str) (k : Z) : slice_to s k ++ slice_from s k = s.
Proof. apply firstn_skipn. Qed.

Lemma len_slice_to (s : str) (k : Z) : 0 <= k -> len (slice_to s k) <= k.
Proof.
  intros Hk. unfold slice_to, slice_index, len.
  destruct (Z.ltb_spec k 0); [lia|].
  rewrite length_firstn. lia.
Qed.

Lemma length_slice_from (s : str) (k : Z) :
  1 <= k -> k < len s ->
  (List.length (slice_from s k) < List.length s)%nat.
Proof.
  intros H1 H2. unfold slice_from, slice_index, len in *.
  destruct (Z.ltb_spec k 0); [lia|].
  rewrite length_skipn. lia.
Qed.

(** The backward scan answers [-1] or one of its candidates. *)
Lemma rfind_scan_range (s sub : str) (lo n : nat) :
  rfind_scan s sub lo n = -1 \/
  Z.of_nat lo <= rfind_scan s sub lo n < Z.of_nat lo + Z.of_nat n.
Proof.
  induction n as [|k IH]; simpl; [left; reflexivity|].
  destruct (startswith (skipn (lo + k) s) sub); [right; lia|].
  destruct IH as [->|IH]; [left; reflexivity | right; lia].
Qed.

(** [rfind] from position 1 answers [-1] or a position from 1 on that
    leaves room for the delimiter before the adjusted end. *)
Lemma rfind_from_1 (s sub : str) (e : Z) :
  rfind s sub 1 e = -1 \/
  (1 <= rfind s sub 1 e /\
   (0 <= e <= len s -> rfind s sub 1 e <= e - len sub)).
Proof.
  unfold rfind. cbv zeta.
  replace (1 <? 0) with false by reflexivity.
  match goal with |- context [if ?c - 1 <? len sub then _ else _] =>
    set (e' := c) end.
  destruct (Z.ltb_spec (e' - 1) (len sub)) as [|Hroom]; [left; reflexivity|].
  destruct (rfind_scan_range s sub (Z.to_nat 1)
              (Z.to_nat (e' - 1 - len sub + 1)))
    as [->|Hr]; [left; reflexivity|].
  right. split; [lia|].
  intros He. assert (e' = e).
  { subst e'. destruct (Z.gtb_spec e (len s)); [lia|].
    destruct (Z.ltb_spec e 0); [lia | reflexivity]. }
  pose proof (len_nonneg sub). lia.
Qed.

Lemma dropwhile_nil (p : char -> bool) (s : str) :
  dropwhile p s = [] <-> forallb p s = true.
Proof.
  induction s as [|c s IH]; simpl; [tauto|].
  destruct (p c); simpl; [exact IH|]. split; discriminate.
Qed.

Lemma forallb_existsb_neg (s : str) :
  forallb isspace s = negb (existsb notspace s).
Proof.
  induction s as [|c s IH]; simpl; [reflexivity|].
  rewrite IH. unfold notspace. destruct (isspace c); reflexivity.
Qed.

(** [strip] leaves nothing exactly when every character is whitespace. *)
Lemma strip_nil (s : str) : strip s = [] <-> forallb isspace s = true.
Proof.
  unfold strip, strip_with. rewrite <- dropwhile_nil.
  split.
  - intros H. apply (f_equal (@rev char)) in H. rewrite rev_involutive in H.
    simpl in H. apply dropwhile_nil in H. rewrite forallb_forall in H.
    apply dropwhile_nil. destruct (dropwhile isspace s) as [|c t] eqn:E;
      [apply dropwhile_nil in E; exact E|].
    exfalso. assert (Hc : isspace c = true).
    { apply H. apply in_rev. rewrite rev_involutive. left; reflexivity. }
    destruct s as [|x s']; [discriminate|].
    clear H. revert E. generalize (x :: s'). intros l.
    induction l as [|y l IH]; simpl; [discriminate|].
    destruct (isspace y) eqn:Ey; [exact IH|].
    intros E; injection E as <- _. congruence.
  - intros ->. reflexivity.
Qed.

End PyStrFacts.

(** ** Pagination *)

Module PagifyFacts.

Import PyStrFacts.

Section Config.

Variable delims : list str.
Variable priority : bool.
Variable shorten_by : Z.
Variable page_length : Z.

Local Abbreviation page := (page shorten_by page_length).
Local Abbreviation closest_delim :=
  (closest_delim delims priority shorten_by page_length).
Local Abbreviation pagify := (pagify delims priority shorten_by page_length).
Local Abbreviation pagify_walk :=
  (pagify_walk delims priority shorten_by page_length).
Local Abbreviation search_result := (search_result shorten_by page_length).

Lemma found_search_result (in_text : str) :
  0 <= page -> page < len in_text ->
  Forall search_result (map (fun d => rfind in_text d 1 page) delims).
Proof.
  intros H0 Hlen. apply Forall_forall. intros z Hz.
  apply in_map_iff in Hz. destruct Hz as [d [<- _]].
  destruct (rfind_from_1 in_text d page) as [->|[H1 H2]];
    [left; reflexivity|].
  right. pose proof (len_nonneg d). lia.
Qed.

Lemma next_positive_result (xs : list Z) :
  Forall search_result xs -> search_result (next_positive xs).
Proof.
  induction 1 as [|x xs Hx _ IH]; simpl; [left; reflexivity|].
  destruct (x >? 0); assumption.
Qed.

Lemma fold_max_result (xs : list Z) (x : Z) :
  search_result x -> Forall search_result xs ->
  search_result (fold_left Z.max xs x).
Proof.
  intros Hx H. revert x Hx.
  induction H as [|y xs Hy _ IH]; simpl; intros x Hx; [exact Hx|].
  apply IH. destruct (Z.max_spec x y) as [[_ ->]|[_ ->]]; assumption.
Qed.

(** The split point of an iteration lies in [1, page] when the page has
    room, and is never beyond the page. *)
Lemma closest_delim_range (in_text : str) (c : Z) :
  0 <= page -> page < len in_text ->
  closest_delim in_text = Some c ->
  c <= page /\ (1 <= c \/ c = page).
Proof.
  intros H0 Hlen. unfold Pagify.closest_delim. cbv zeta.
  pose proof (found_search_result in_text H0 Hlen) as Hf.
  set (found := map _ delims) in *.
  assert (Hc : forall z, search_result z ->
            (if negb (z =? -1) then z else page) <= page /\
            (1 <= (if negb (z =? -1) then z else page) \/
             (if negb (z =? -1) then z else page) = page)).
  { intros z [->|Hz]; simpl; [lia|].
    destruct (Z.eqb_spec z (-1)); simpl; lia. }
  destruct priority.
  - intros E; injection E as <-. apply Hc, next_positive_result, Hf.
  - destruct found as [|x r]; simpl; [discriminate|].
    intros E; injection E as <-. inversion Hf; subst.
    apply Hc, fold_max_result; assumption.
Qed.


Lemma closest_delim_defined (in_text : str) :
  delims <> [] \/ priority = true ->
  exists c, closest_delim in_text = Some c.
Proof.
  intros H. unfold Pagify.closest_delim. cbv zeta.
  destruct priority; [eexists; reflexivity|].
  destruct H as [H|H]; [|discriminate].
  destruct delims; [contradiction|]. simpl. eexists; reflexivity.
Qed.

Lemma closest_delim_undefined (in_text : str) :
  closest_delim in_text = None -> delims = [] /\ priority = false.
Proof.
  unfold Pagify.closest_delim. cbv zeta.
  destruct priority; [discriminate|].
  destruct delims; [split; reflexivity | discriminate].
Qed.

Lemma in_emit (s chunk : str) : In chunk (emit s) -> chunk = s.
Proof.
  unfold emit. destruct (nonblank s); simpl; [|contradiction].
  intros [H|[]]; symmetry; exact H.
Qed.

(** Every chunk is at most a page long, however far the run has got. *)
Lemma pagify_chunks_le_page (fuel : nat) (text chunk : str) :
  0 <= page -> In chunk (fst (pagify fuel text)) -> len chunk <= page.
Proof.
  intros H0. revert text.
  induction fuel as [|f IH]; intros text; simpl; [contradiction|].
  destruct (Z.gtb_spec (len text) page) as [Hlong|Hshort].
  - destruct (closest_delim text) as [c|] eqn:Ec; simpl; [|contradiction].
    destruct (pagify f (slice_from text c)) as [later st] eqn:Er.
    simpl. intros Hin. apply in_app_or in Hin. destruct Hin as [Hin|Hin].
    + apply in_emit in Hin. subst chunk.
      destruct (closest_delim_range text c H0 Hlong Ec) as [Hc [Hc'|Hc']];
        pose proof (len_slice_to text c); lia.
    + apply (IH (slice_from text c)). rewrite Er. exact Hin.
  - simpl. intros Hin. apply in_emit in Hin. subst chunk. exact Hshort.
Qed.

(** One iteration strictly shortens the remaining text when the page has
    room for a character. *)
Lemma iteration_shortens (in_text : str) (c : Z) :
  1 <= page -> page < len in_text ->
  closest_delim in_text = Some c ->
  (List.length (slice_from in_text c) < List.length in_text)%nat.
Proof.
  intros H1 Hlen Ec.
  destruct (closest_delim_range in_text c ltac:(lia) Hlen Ec) as [Hc Hc'].
  apply length_slice_from; lia.
Qed.

(** With that room, a run given more iterations than the text has
    characters has left the loop. *)
Lemma pagify_leaves_loop (fuel : nat) (text : str) :
  1 <= page -> (List.length text < fuel)%nat ->
  snd (pagify fuel text) = Exhausted \/
  (snd (pagify fuel text) = ValueError /\ delims = [] /\ priority = false).
Proof.
  intros H1. revert text.
  induction fuel as [|f IH]; intros text Hf; [lia|]. simpl.
  destruct (Z.gtb_spec (len text) page) as [Hlong|Hshort];
    [|left; reflexivity].
  destruct (closest_delim text) as [c|] eqn:Ec.
  - pose proof (iteration_shortens text c H1 Hlong Ec) as Hs.
    specialize (IH (slice_from text c) ltac:(lia)).
    destruct (pagify f (slice_from text c)) as [later st]. exact IH.
  - right. split; [reflexivity|]. apply closest_delim_undefined in Ec.
    exact Ec.
Qed.

(** The instrumented walk yields what the generator yields. *)
Lemma pagify_walk_pagify (fuel : nat) (text : str) :
  fst (pagify fuel text) = yielded (fst (pagify_walk fuel text)) /\
  snd (pagify fuel text) = snd (pagify_walk fuel text).
Proof.
  revert text. induction fuel as [|f IH]; intros text; simpl;
    [split; reflexivity|].
  destruct (len text >? page).
  - destruct (closest_delim text) as [c|]; [|split; reflexivity].
    specialize (IH (slice_from text c)).
    destruct (pagify f (slice_from text c)) as [later st].
    destruct (pagify_walk f (slice_from text c)) as [segs st'].
    simpl in *. destruct IH as [-> ->]. split; [|reflexivity].
    unfold yielded, emit, segment. simpl.
    destruct (nonblank (slice_to text c)); reflexivity.
  - split; [|reflexivity]. unfold yielded, emit, segment. simpl.
    destruct (nonblank text); reflexivity.
Qed.

(** A walk that has ended normally passed over the whole text, in order. *)
Lemma pagify_walk_concat (fuel : nat) (text : str) :
  snd (pagify_walk fuel text) = Exhausted ->
  List.concat (map snd (fst (pagify_walk fuel text))) = text.
Proof.
  revert text. induction fuel as [|f IH]; intros text; simpl;
    [discriminate|].
  destruct (len text >? page).
  - destruct (closest_delim text) as [c|]; [|discriminate].
    specialize (IH (slice_from text c)).
    destruct (pagify_walk f (slice_from text c)) as [segs st].
    simpl in *. intros Hst. rewrite (IH Hst). apply slice_to_from.
  - intros _. simpl. apply app_nil_r.
Qed.

Lemma nonblank_true (s : str) :
  nonblank s = true -> existsb notspace s = true.
Proof.
  unfold nonblank. intros H.
  destruct (existsb notspace s) eqn:E; [reflexivity|].
  assert (Hs : strip s = []).
  { apply strip_nil. rewrite forallb_existsb_neg, E. reflexivity. }
  rewrite Hs in H. discriminate.
Qed.

Lemma nonblank_false (s : str) :
  nonblank s = false -> forallb isspace s = true.
Proof.
  unfold nonblank. intros H. apply strip_nil.
  destruct (strip s); [reflexivity|].
  unfold len in H. simpl in H.
  destruct (Z.gtb_spec (Z.pos (Pos.of_succ_nat (List.length s0))) 0);
    [discriminate | lia].
Qed.

(** The flag of a segment tells whether it has a visible character. *)
Lemma pagify_walk_flags (fuel : nat) (text : str) :
  Forall (fun sg => fst sg = nonblank (snd sg)) (fst (pagify_walk fuel text)).
Proof.
  revert text. induction fuel as [|f IH]; intros text; simpl;
    [constructor|].
  destruct (len text >? page).
  - destruct (closest_delim text) as [c|]; [|constructor].
    specialize (IH (slice_from text c)).
    destruct (pagify_walk f (slice_from text c)) as [segs st].
    simpl in *. constructor; [reflexivity | exact IH].
  - simpl. constructor; [reflexivity | constructor].
Qed.

Lemma yielded_visible (segs : list (bool * str)) :
  Forall (fun sg => fst sg = nonblank (snd sg)) segs ->
  Forall (fun s => existsb notspace s = true) (yielded segs).
Proof.
  induction 1 as [|[b s] segs Hb _ IH]; simpl; [constructor|].
  unfold yielded in *. simpl in *. destruct b; simpl; [|exact IH].
  constructor; [apply nonblank_true; auto | exact IH].
Qed.

Lemma skipped_blank (segs : list (bool * str)) :
  Forall (fun sg => fst sg = nonblank (snd sg)) segs ->
  Forall (fun s => forallb isspace s = true) (skipped segs).
Proof.
  induction 1 as [|[b s] segs Hb _ IH]; simpl; [constructor|].
  unfold skipped in *. simpl in *. destruct b; simpl; [exact IH|].
  constructor; [apply nonblank_false; auto | exact IH].
Qed.

End Config.

End PagifyFacts.

(** ** Pagination: the claims *)

Module PagifyClaims.

Import PyStrFacts PagifyFacts Samples.

(** With a page of no room the loop passes an empty segment and keeps the
    same text for ever. *)
Lemma stuck_on_empty_page (fuel : nat) :
  pagify_walk default_delims false 12 12 fuel (lit "a")
  = (repeat (false, []) fuel, Suspended (lit "a")).
Proof.
  induction fuel as [|f IH]; [reflexivity|].
  change (pagify_walk default_delims false 12 12 (S f) (lit "a"))
    with (let '(later, st) :=
            pagify_walk default_delims false 12 12 f (lit "a") in
          (segment ([] : str) :: later, st)).
  rewrite IH. reflexivity.
Qed.

Lemma concat_empty_segments (n : nat) :
  List.concat (map snd (repeat (false, [] : str) n)) = [].
Proof. induction n as [|n IH]; simpl; [reflexivity | exact IH]. Qed.




(** C6 (as amended): ["a\n" * 2000] under the default settings comes out
    as three chunks of 1987, 1986 and 27 characters, none longer than 1988;
    each chunk but the last ends with ["a"], immediately before a newline:
    the newline opens the next chunk. *)
Theorem pagify_a_newline_2000 :
  pagify default_delims false 12 2000 4 a_newline_2000
  = ([first_page; second_page; last_page], Exhausted) /\
  map len [first_page; second_page; last_page] = [1987; 1986; 27] /\
  forallb (fun c => len c <=? 1988) (pagify_default a_newline_2000) = true /\
  endswith first_page (lit "a") = true /\
  startswith second_page newline = true /\
  endswith second_page (lit "a") = true /\
  startswith last_page newline = true /\
  endswith last_page newline = true.
Proof. vm_compute. repeat split. Qed.

(** C6 fails as stated: the chunks before the last do not all end with a
    newline. *)
Lemma pagify_a_newline_2000_not_after_newline :
  forallb (fun c => endswith c newline)
    (removelast (pagify_default a_newline_2000)) = false.
Proof. vm_compute. reflexivity. Qed.

(** C7 (as amended): when [page_length - shorten_by] is at least 1 and
    there is a delimiter or priority mode is on, the walk ends within
    [len(text) + 1] evaluations of the loop condition; the segments it
    passed spell the input in order; the chunks yielded are the segments
    with a non-whitespace character, and the segments left out consist of
    whitespace only. *)
Theorem pagify_reconstructs
  (delims : list str) (priority : bool) (shorten_by page_length : Z)
  (text : str)
  (Hpage : 1 <= page_length - shorten_by)
  (Hdelims : delims <> [] \/ priority = true) :
  let fuel := S (List.length text) in
  let run := pagify_walk delims priority shorten_by page_length fuel text in
  snd run = Exhausted /\
  List.concat (map snd (fst run)) = text /\
  pagify delims priority shorten_by page_length fuel text
  = (yielded (fst run), Exhausted) /\
  Forall (fun s => existsb notspace s = true) (yielded (fst run)) /\
  Forall (fun s => forallb isspace s = true) (skipped (fst run)).
Proof.
  intros fuel run.
  destruct (pagify_walk_pagify delims priority shorten_by page_length
              fuel text) as [Hy Hs].
  assert (Hend : snd run = Exhausted).
  { destruct (pagify_leaves_loop delims priority shorten_by page_length
                fuel text Hpage) as [H|[_ [Hd Hp]]].
    - unfold fuel; lia.
    - unfold run. rewrite <- Hs. exact H.
    - destruct Hdelims as [H|H]; [contradiction | congruence]. }
  pose proof (pagify_walk_flags delims priority shorten_by page_length
                fuel text) as Hflags.
  split; [exact Hend|]. split; [apply pagify_walk_concat; exact Hend|].
  split.
  - destruct (pagify delims priority shorten_by page_length fuel text)
      as [chunks st].
    unfold fst at 1 in Hy. unfold snd at 1 in Hs. subst chunks st.
    unfold run in *. rewrite Hend. reflexivity.
  - split; [apply yielded_visible | apply skipped_blank]; exact Hflags.
Qed.

Lemma pagify_reconstructs_words :
  1 <= 5 - 0 /\ (comma_space <> [] \/ false = true) /\
  let run := pagify_walk comma_space false 0 5 (S (List.length words)) words in
  snd run = Exhausted /\
  List.concat (map snd (fst run)) = words /\
  pagify comma_space false 0 5 (S (List.length words)) words
  = (yielded (fst run), Exhausted) /\
  Forall (fun s => existsb notspace s = true) (yielded (fst run)) /\
  Forall (fun s => forallb isspace s = true) (skipped (fst run)).
Proof.
  split; [lia|]. split; [left; discriminate|].
  apply (pagify_reconstructs comma_space false 0 5 words);
    [lia | left; discriminate].
Defined.

(** C7 fails as stated: with [page_length=12] and [shorten_by=12] the walk
    over ["a"] never ends, and the segments it passes, all empty, never
    spell the ["a"]. *)
Lemma pagify_never_reconstructs_on_empty_page :
  ~ reconstructs default_delims false 12 12 (lit "a") /\
  forall fuel,
    List.concat
      (map snd (fst (pagify_walk default_delims false 12 12 fuel (lit "a"))))
    <> lit "a".
Proof.
  split.
  - intros [fuel [Hend _]]. rewrite stuck_on_empty_page in Hend.
    discriminate.
  - intros fuel. rewrite stuck_on_empty_page. simpl fst.
    rewrite concat_empty_segments. discriminate.
Qed.

(** C8 (as amended): when [page_length - shorten_by] is at least 1, every
    iteration of the loop strictly shortens the remaining text, and the
    generator is done within [len(text) + 1] evaluations of the loop
    condition: it returns, or, with no delimiter and priority mode off,
    [max] raises on a text longer than the page. *)
Theorem pagify_terminates
  (delims : list str) (priority : bool) (shorten_by page_length : Z)
  (text : str)
  (Hpage : 1 <= page_length - shorten_by) :
  terminates delims priority shorten_by page_length text /\
  (let st := snd (pagify delims priority shorten_by page_length
                    (S (List.length text)) text) in
   st = Exhausted \/ (st = ValueError /\ delims = [] /\ priority = false)) /\
  (forall in_text c,
     page_length - shorten_by < len in_text ->
     closest_delim delims priority shorten_by page_length in_text = Some c ->
     (List.length (slice_from in_text c) < List.length in_text)%nat).
Proof.
  pose proof (pagify_leaves_loop delims priority shorten_by page_length
                (S (List.length text)) text Hpage ltac:(lia)) as Hend.
  split; [|split].
  - exists (S (List.length text)). intros rest Hrest.
    destruct Hend as [H|[H _]]; rewrite H in Hrest; discriminate.
  - exact Hend.
  - intros in_text c Hlong Hc.
    exact (iteration_shortens delims priority shorten_by page_length
             in_text c Hpage Hlong Hc).
Qed.

Lemma pagify_terminates_default :
  1 <= 2000 - 12 /\ terminates default_delims false 12 2000 a_newline_2000.
Proof.
  split; [lia|].
  apply (pagify_terminates default_delims false 12 2000 a_newline_2000). lia.
Defined.

(** C8 fails as stated: with [page_length=12] and [shorten_by=12] the loop
    over ["a"] never ends. *)
Lemma pagify_diverges_on_empty_page :
  ~ terminates default_delims false 12 12 (lit "a").
Proof.
  intros [fuel H]. apply (H (lit "a")).
  destruct (pagify_walk_pagify default_delims false 12 12 fuel (lit "a"))
    as [_ ->].
  rewrite stuck_on_empty_page. reflexivity.
Qed.

End PagifyClaims.

(** ** The console and the router *)

Module ConsoleFacts.

Import PyStrFacts Console.

Lemma dropwhile_isspace_visible (s : str) :
  has_whitespace s = false -> dropwhile isspace s = s.
Proof.
  unfold has_whitespace. destruct s as [|c s]; simpl; [reflexivity|].
  destruct (isspace c); [discriminate | reflexivity].
Qed.

Lemma takewhile_notspace_visible (s : str) :
  has_whitespace s = false -> takewhile notspace s = s.
Proof.
  unfold has_whitespace, notspace.
  induction s as [|c s IH]; simpl; [reflexivity|].
  destruct (isspace c); simpl; [discriminate|]. intros H. rewrite IH; auto.
Qed.

Lemma dropwhile_notspace_visible (s : str) :
  has_whitespace s = false -> dropwhile notspace s = [].
Proof.
  unfold has_whitespace, notspace.
  induction s as [|c s IH]; simpl; [reflexivity|].
  destruct (isspace c); simpl; [discriminate | exact IH].
Qed.

(** A non-empty text without whitespace is one command and no body. *)
Lemma split_maxsplit1_visible (s : str) :
  s <> [] -> has_whitespace s = false -> split_maxsplit1 s = [s].
Proof.
  intros Hne Hs. unfold split_maxsplit1.
  rewrite (dropwhile_isspace_visible s Hs).
  destruct s as [|c r]; [contradiction|]. cbv beta iota.
  rewrite (takewhile_notspace_visible (c :: r) Hs).
  rewrite (dropwhile_notspace_visible (c :: r) Hs).
  reflexivity.
Qed.

Lemma has_whitespace_app (a b : str) :
  has_whitespace (a ++ b) = has_whitespace a || has_whitespace b.
Proof. apply existsb_app. Qed.

(** A non-empty text without whitespace is a single run of [split]. *)
Lemma split_visible (s : str) :
  s <> [] -> has_whitespace s = false -> split s = [s].
Proof.
  intros Hne Hs. unfold split.
  destruct s as [|c r]; [contradiction|]. cbn [List.length split_runs].
  rewrite (dropwhile_isspace_visible (c :: r) Hs).
  rewrite (takewhile_notspace_visible (c :: r) Hs).
  rewrite (dropwhile_notspace_visible (c :: r) Hs).
  destruct (List.length r); reflexivity.
Qed.

(** The prefix check lets every non-empty prefix without whitespace
    through. *)
Lemma load_prefix_visible (p : str) :
  p <> [] -> has_whitespace p = false -> load_prefix (Some p) = Proceeds p.
Proof.
  intros Hne Hs. unfold load_prefix. rewrite (split_visible p Hne Hs).
  reflexivity.
Qed.

(** Two command words after the same prefix are told apart. *)
Lemma command_eqb (prefix a b : str) :
  str_eqb (prefix ++ a) (prefix ++ b) = str_eqb a b.
Proof.
  induction prefix as [|c prefix IH]; simpl; [reflexivity|].
  unfold char_eqb. rewrite N.eqb_refl. exact IH.
Qed.

Section Bot.

Variable cfg : config.
Variable interp : interpreter.

Lemma send_last_result channel text w :
  last_result (send channel text w) = last_result w.
Proof. reflexivity. Qed.

Lemma send_blocks_last_result channel text w :
  last_result (send_blocks channel text w) = last_result w.
Proof.
  unfold send_blocks. generalize (pagify_default text). intros pages.
  revert w. induction pages as [|page pages IH]; intros w; simpl;
    [reflexivity|].
  rewrite IH. reflexivity.
Qed.

Lemma send_syntax_error_last_result channel e w :
  last_result (send_syntax_error channel e w) = last_result w.
Proof.
  unfold send_syntax_error. destruct (get_syntax_error e);
    [apply send_blocks_last_result | reflexivity].
Qed.

Lemma send_sanitized_last_result channel text w :
  last_result (send_sanitized cfg channel text w) = last_result w.
Proof.
  unfold send_sanitized. destruct (sanitize_output cfg text);
    [apply send_blocks_last_result | reflexivity].
Qed.

(** [maybe_await] strips at most two layers and stops. *)
Lemma maybe_await_layers (texts : list str) (v : pyobj) :
  isawaitable v = false ->
  maybe_await (layers texts v) = inl (layers (skipn 2 texts) v).
Proof.
  intros Hv. unfold maybe_await.
  destruct texts as [|a [|b rest]]; simpl.
  - destruct v as [| |? ?]; [reflexivity | reflexivity | discriminate].
  - destruct v as [| |? ?]; [reflexivity | reflexivity | discriminate].
  - reflexivity.
Qed.

End Bot.

End ConsoleFacts.

Module ConsoleClaims.

Import PyStrFacts ConsoleFacts Console Samples.

(** C1 (the code departs from it): [re.I] reaches [re.sub] as its [count],
    so the first two occurrences of the token are replaced and the third
    is transmitted, and an occurrence in another letter case is not
    matched at all. *)
Theorem sanitize_output_leaks :
  sanitize_output bang (lit "abc abc abc")
  = Some (lit "[EXPUNGED] [EXPUNGED] abc") /\
  sanitize_output bang (lit "ABC") = Some (lit "ABC") /\
  trace (debug bang (constant_interpreter (Returned [] PyNone)
                       (PyObj (lit "abc abc abc")))
           (lit "01CHAN") (lit "client") (from_owner (lit "!debug client"))
           fresh)
  = [Post (lit "01CHAN")
       (smiley ++ newline ++ lit "```py" ++ newline
        ++ lit "[EXPUNGED] [EXPUNGED] abc" ++ newline ++ lit "```"
        ++ newline ++ smiley)] /\
  occurs (lit "abc") (lit "[EXPUNGED] [EXPUNGED] abc") = true /\
  occurs EXPUNGED (lit "ABC") = false.
Proof. vm_compute. repeat split. Qed.

(** C2: a message whose author is not the owner changes nothing: no
    request is sent and the connection is not closed, whatever the content.
    With a prefix free of whitespace, the prefix followed by [shutdown]
    from the owner sends one reply and then closes the connection. *)
Theorem on_message_owner_gate
  (cfg : config) (interp : interpreter) (msg : message) (w : world) :
  (author_id msg <> owner_id cfg -> on_message cfg interp msg w = w) /\
  (author_id msg = owner_id cfg ->
   has_whitespace (PREFIX cfg) = false ->
   content msg = Some (PREFIX cfg ++ lit "shutdown") ->
   trace (on_message cfg interp msg w)
   = trace w ++
     [Post (channel_id msg)
        (smiley ++ newline ++ lit "Shutting down..." ++ newline ++ smiley);
      Close] /\
   last_result (on_message cfg interp msg w) = last_result w).
Proof.
  split.
  - intros Hne. unfold on_message.
    rewrite (str_eqb_neq _ _ Hne). reflexivity.
  - intros Hown Hprefix Hcontent. unfold on_message.
    rewrite Hown, str_eqb_refl, Hcontent. simpl negb. cbv iota.
    rewrite split_maxsplit1_visible.
    + rewrite !command_eqb. simpl. rewrite <- app_assoc. split; reflexivity.
    + destruct (PREFIX cfg); discriminate.
    + rewrite has_whitespace_app, Hprefix. reflexivity.
Qed.

Lemma on_message_owner_gate_bang :
  (author_id (from_stranger (lit "!shutdown")) <> owner_id bang /\
   on_message bang quiet (from_stranger (lit "!shutdown")) fresh = fresh) /\
  (author_id (from_owner (lit "!shutdown")) = owner_id bang /\
   has_whitespace (PREFIX bang) = false /\
   content (from_owner (lit "!shutdown"))
   = Some (PREFIX bang ++ lit "shutdown") /\
   trace (on_message bang quiet (from_owner (lit "!shutdown")) fresh)
   = trace fresh ++
     [Post (lit "01CHAN")
        (smiley ++ newline ++ lit "Shutting down..." ++ newline ++ smiley);
      Close]).
Proof.
  assert (Hne : author_id (from_stranger (lit "!shutdown")) <> owner_id bang)
    by (vm_compute; discriminate).
  split.
  - split; [exact Hne|].
    exact (proj1 (on_message_owner_gate bang quiet
                    (from_stranger (lit "!shutdown")) fresh) Hne).
  - split; [reflexivity|]. split; [reflexivity|]. split; [reflexivity|].
    exact (proj1 (proj2 (on_message_owner_gate bang quiet
                    (from_owner (lit "!shutdown")) fresh)
                    eq_refl eq_refl eq_refl)).
Defined.

(** C3 (as amended): a body that does not compile, or that raises, leaves
    the stored last result as it was, in [eval] and in [debug]; [debug]
    stores the awaited value of every successful evaluation; [eval] stores
    the value a successful body returns when that value is not [None], and
    leaves the stored value as it was when the body returns [None]. *)
Theorem last_result_update
  (cfg : config) (interp : interpreter) (channel body : str)
  (msg : message) (w : world) :
  last_result (eval cfg interp channel body msg w)
  = match exec_source interp (to_compile interp body)
            (get_environment msg w) with
    | ExecDefined (Returned _ result) =>
        if is_none result then last_result w else result
    | _ => last_result w
    end /\
  last_result (debug cfg interp channel body msg w)
  = match eval_source interp (cleanup_code body)
            (get_environment msg w) with
    | EvalValue v =>
        match maybe_await v with
        | inl result => result
        | inr _ => last_result w
        end
    | _ => last_result w
    end.
Proof.
  split.
  - unfold eval.
    destruct (exec_source interp (to_compile interp body)
                (get_environment msg w)) as [e|[out result|out tb|exn]].
    + apply send_syntax_error_last_result.
    + destruct (is_none result); simpl negb; cbv iota;
        rewrite send_sanitized_last_result; reflexivity.
    + simpl. rewrite send_sanitized_last_result. reflexivity.
    + reflexivity.
  - unfold debug.
    destruct (eval_source interp (cleanup_code body)
                (get_environment msg w)) as [e|tb|exn|v].
    + rewrite send_syntax_error_last_result. reflexivity.
    + rewrite send_blocks_last_result. reflexivity.
    + reflexivity.
    + destruct (maybe_await v) as [result|[tb|e]].
      * rewrite send_sanitized_last_result. reflexivity.
      * rewrite send_blocks_last_result. reflexivity.
      * rewrite send_syntax_error_last_result. reflexivity.
Qed.

(** C3 fails as stated: a body that runs to its end and returns [None] is
    a success, and [eval] keeps the value stored before it. *)
Lemma eval_success_keeps_last_result :
  exec_source quiet (to_compile quiet (lit "pass"))
    (get_environment (from_owner (lit "!eval pass")) fresh)
  = ExecDefined (Returned [] PyNone) /\
  last_result (eval bang quiet (lit "01CHAN") (lit "pass")
                 (from_owner (lit "!eval pass")) fresh)
  = PyObj (lit "1") /\
  last_result (eval bang quiet (lit "01CHAN") (lit "pass")
                 (from_owner (lit "!eval pass")) fresh)
  <> PyNone.
Proof. split; [reflexivity|]. split; [reflexivity | discriminate]. Qed.

(** C4: [debug] awaits the evaluated value at most twice.  When the value
    is a chain of awaitables around a value that is not awaitable, the
    result is the chain without its two outer layers: the value itself for
    a chain of none, one or two layers, and the third, still awaitable,
    layer for a chain of three.  That result is stored and its text is
    sent, after whatever the evaluated code itself did. *)
Theorem debug_awaits_twice
  (cfg : config) (interp : interpreter) (channel body : str)
  (msg : message) (w : world) (texts : list str) (v : pyobj)
  (Hv : isawaitable v = false)
  (Heval : eval_source interp (cleanup_code body) (get_environment msg w)
           = EvalValue (layers texts v)) :
  let result := layers (skipn 2 texts) v in
  maybe_await (layers texts v) = inl result /\
  debug cfg interp channel body msg w
  = send_sanitized cfg channel (py_str result)
      (set_last_result result
         (perform (eval_effects interp (cleanup_code body)
                     (get_environment msg w)) w)) /\
  last_result (debug cfg interp channel body msg w) = result /\
  ((List.length texts <= 2)%nat -> result = v) /\
  (forall a b c, texts = [a; b; c] ->
     result = PyAwaitable c (Resolves v) /\ isawaitable result = true).
Proof.
  intros result.
  pose proof (maybe_await_layers texts v Hv) as Hawait. fold result in Hawait.
  assert (Hdebug : debug cfg interp channel body msg w
            = send_sanitized cfg channel (py_str result)
                (set_last_result result
                   (perform (eval_effects interp (cleanup_code body)
                               (get_environment msg w)) w))).
  { unfold debug. rewrite Heval, Hawait. reflexivity. }
  split; [exact Hawait|]. split; [exact Hdebug|]. split; [|split].
  - rewrite Hdebug, send_sanitized_last_result. reflexivity.
  - intros Hlen. unfold result.
    destruct texts as [|a [|b [|c r]]]; simpl in *; try reflexivity; lia.
  - intros a b c ->. split; reflexivity.
Qed.

Lemma debug_awaits_twice_three_layers :
  isawaitable forty_two = false /\
  maybe_await three_layers
  = inl (PyAwaitable (lit "<coroutine c>") (Resolves forty_two)) /\
  last_result
    (debug bang (constant_interpreter (Returned [] PyNone) three_layers)
       (lit "01CHAN") (lit "nested()") (from_owner (lit "!debug nested()"))
       fresh)
  = PyAwaitable (lit "<coroutine c>") (Resolves forty_two).
Proof.
  split; [reflexivity|].
  pose proof (debug_awaits_twice bang
                (constant_interpreter (Returned [] PyNone) three_layers)
                (lit "01CHAN") (lit "nested()")
                (from_owner (lit "!debug nested()")) fresh
                [lit "<coroutine a>"; lit "<coroutine b>";
                 lit "<coroutine c>"]
                forty_two eq_refl eq_refl) as [Hawait [_ [Hlast _]]].
  split; [exact Hawait | exact Hlast].
Defined.

(** C9 (the code departs from it): the prefix check counts the runs of
    [split], so a prefix with whitespace at either end, a single run,
    passes it and start-up goes on; with such a prefix the owner's [ping]
    is never recognised. *)
Theorem load_prefix_trailing_space :
  has_whitespace (lit "! ") = true /\
  load_prefix (Some (lit "! ")) = Proceeds (lit "! ") /\
  has_whitespace (lit " !") = true /\
  load_prefix (Some (lit " !")) = Proceeds (lit " !") /\
  on_message bang_space quiet (from_owner (lit "! ping")) fresh = fresh.
Proof. repeat split. Qed.

(** C10: when the content of a message splits into the [eval] or [debug]
    command word alone, so that the body is empty, the handler returns
    with nothing sent and the stored last result untouched, whatever the
    interpreter would have answered. *)
Theorem on_message_empty_body
  (cfg : config) (interp : interpreter) (msg : message) (w : world)
  (text word : str)
  (Htext : content msg = Some text)
  (Hword : word = lit "eval" \/ word = lit "debug")
  (Hsplit : split_maxsplit1 text = [PREFIX cfg ++ word]) :
  on_message cfg interp msg w = w.
Proof.
  unfold on_message.
  destruct (negb (str_eqb (author_id msg) (owner_id cfg))); [reflexivity|].
  rewrite Htext, Hsplit, !command_eqb.
  destruct Hword as [-> | ->]; reflexivity.
Qed.

Lemma on_message_bare_eval :
  content (from_owner (lit "!eval")) = Some (lit "!eval") /\
  split_maxsplit1 (lit "!eval") = [PREFIX bang ++ lit "eval"] /\
  on_message bang quiet (from_owner (lit "!eval")) fresh = fresh.
Proof.
  split; [reflexivity|]. split; [reflexivity|].
  apply (on_message_empty_body bang quiet (from_owner (lit "!eval")) fresh
           (lit "!eval") (lit "eval"));
    [reflexivity | left; reflexivity | reflexivity].
Defined.

End ConsoleClaims.

(** ** Pagination: where the cuts fall *)

Module PagifyCuts.

Import PyStrFacts PagifyFacts.

Lemma forallb_firstn (p : char -> bool) (n : nat) (s : str) :
  forallb p s = true -> forallb p (firstn n s) = true.
Proof.
  revert n. induction s as [|c s IH]; intros [|n]; simpl; auto.
  rewrite !andb_true_iff. intros [Hc Hs]. auto.
Qed.

Lemma forallb_skipn (p : char -> bool) (n : nat) (s : str) :
  forallb p s = true -> forallb p (skipn n s) = true.
Proof.
  revert n. induction s as [|c s IH]; intros [|n]; simpl; auto.
  rewrite andb_true_iff. intros [_ Hs]. auto.
Qed.

Lemma blank_not_nonblank (s : str) :
  forallb isspace s = true -> nonblank s = false.
Proof.
  intros H. apply strip_nil in H. unfold nonblank. rewrite H. reflexivity.
Qed.

Lemma visible_nonblank (s : str) :
  existsb notspace s = true -> nonblank s = true.
Proof.
  intros H. destruct (nonblank s) eqn:E; [reflexivity|].
  apply nonblank_false in E. rewrite forallb_existsb_neg, H in E.
  discriminate.
Qed.

(** A hit of the backward scan is a place where the text goes on with
    [sub]. *)
Lemma rfind_scan_hit (s sub : str) (lo n : nat) :
  rfind_scan s sub lo n <> -1 ->
  startswith (skipn (Z.to_nat (rfind_scan s sub lo n)) s) sub = true.
Proof.
  induction n as [|k IH]; simpl; [congruence|].
  destruct (startswith (skipn (lo + k) s) sub) eqn:E; [|exact IH].
  intros _. rewrite Nat2Z.id. exact E.
Qed.

(** The scan passes over no candidate that is a hit. *)
Lemma rfind_scan_max (s sub : str) (lo n k : nat) :
  (lo <= k < lo + n)%nat ->
  startswith (skipn k s) sub = true ->
  Z.of_nat k <= rfind_scan s sub lo n.
Proof.
  induction n as [|m IH]; simpl; [lia|]. intros Hk Hhit.
  destruct (startswith (skipn (lo + m) s) sub) eqn:E; [lia|].
  apply IH; [|exact Hhit].
  assert (k <> lo + m)%nat by (intros ->; congruence). lia.
Qed.

Lemma rfind_hit (s sub : str) (e : Z) :
  rfind s sub 1 e <> -1 ->
  startswith (slice_from s (rfind s sub 1 e)) sub = true.
Proof.
  intros Hr. destruct (rfind_from_1 s sub e) as [H|[H1 _]]; [contradiction|].
  unfold slice_from, slice_index.
  destruct (Z.ltb_spec (rfind s sub 1 e) 0); [lia|].
  revert Hr. clear. unfold rfind. cbv zeta.
  match goal with |- context [if ?c <? len sub then _ else _] =>
    destruct (c <? len sub) end; [congruence|].
  apply rfind_scan_hit.
Qed.

Lemma rfind_max (s sub : str) (e j : Z) :
  0 <= e <= len s -> 1 <= j <= e - len sub ->
  startswith (slice_from s j) sub = true ->
  j <= rfind s sub 1 e.
Proof.
  intros He Hj Hhit. unfold slice_from, slice_index in Hhit.
  destruct (Z.ltb_spec j 0); [lia|].
  unfold rfind. cbv zeta.
  replace (1 <? 0) with false by reflexivity.
  destruct (Z.gtb_spec e (len s)); [lia|].
  destruct (Z.ltb_spec e 0); [lia|].
  destruct (Z.ltb_spec (e - 1) (len sub)); [lia|].
  rewrite <- (Z2Nat.id j) at 1 by lia.
  apply rfind_scan_max; [lia | exact Hhit].
Qed.

Lemma next_positive_in (xs : list Z) :
  next_positive xs = -1 \/ In (next_positive xs) xs.
Proof.
  induction xs as [|x r IH]; simpl; [left; reflexivity|].
  destruct (x >? 0); [right; left; reflexivity|].
  destruct IH as [H|H]; [left; exact H | right; right; exact H].
Qed.

Lemma fold_max_in (xs : list Z) (x : Z) :
  In (fold_left Z.max xs x) (x :: xs).
Proof.
  revert x. induction xs as [|y r IH]; intros x; simpl; [left; reflexivity|].
  destruct (IH (Z.max x y)) as [H|H]; [|right; right; exact H].
  destruct (Z.max_spec x y) as [[_ E]|[_ E]].
  - right; left. congruence.
  - left. congruence.
Qed.

Lemma fold_max_ge (xs : list Z) (x z : Z) :
  In z (x :: xs) -> z <= fold_left Z.max xs x.
Proof.
  revert x z. induction xs as [|y r IH]; intros x z; simpl.
  - intros [->|[]]; lia.
  - intros [->|[->|H]].
    + transitivity (Z.max z y); [lia | apply IH; left; reflexivity].
    + transitivity (Z.max x z); [lia | apply IH; left; reflexivity].
    + apply IH. right; exact H.
Qed.

Section Config.

Variable delims : list str.
Variable priority : bool.
Variable shorten_by : Z.
Variable page_length : Z.

Local Abbreviation page := (page shorten_by page_length).
Local Abbreviation closest_delim :=
  (closest_delim delims priority shorten_by page_length).
Local Abbreviation pagify := (pagify delims priority shorten_by page_length).

Lemma blank_text_no_chunks (fuel : nat) (text : str) :
  forallb isspace text = true -> fst (pagify fuel text) = [].
Proof.
  revert text. induction fuel as [|f IH]; intros text Hblank; simpl;
    [reflexivity|].
  destruct (len text >? page).
  - destruct (closest_delim text) as [c|]; [|reflexivity].
    specialize (IH (slice_from text c) (forallb_skipn _ _ _ Hblank)).
    destruct (pagify f (slice_from text c)) as [later st]. simpl in *.
    subst later. unfold emit, slice_to.
    rewrite (blank_not_nonblank _ (forallb_firstn _ _ _ Hblank)).
    reflexivity.
  - simpl. unfold emit. rewrite (blank_not_nonblank _ Hblank). reflexivity.
Qed.

(** A text of whitespace only (the empty text too) yields no chunk,
    whatever the delimiters, the margins and the length of the run. *)
Theorem pagify_blank_yields_nothing (fuel : nat) (text : str)
  (Hblank : forallb isspace text = true) :
  fst (pagify fuel text) = [].
Proof. exact (blank_text_no_chunks fuel text Hblank). Qed.

(** A cut that is not the hard cut at the page boundary falls at position 1
    or later, right before an occurrence of one of the delimiters: the
    remaining text begins with that delimiter. *)
Theorem cut_before_delimiter (in_text : str) (c : Z)
  (Hpage : 0 <= page) (Hlong : page < len in_text)
  (Hcut : closest_delim in_text = Some c)
  (Hsoft : c <> page) :
  1 <= c <= page /\
  exists d, In d delims /\ startswith (slice_from in_text c) d = true.
Proof.
  destruct (closest_delim_range delims priority shorten_by page_length
              in_text c Hpage Hlong Hcut) as [Hle Hge].
  split; [lia|].
  revert Hcut. unfold Pagify.closest_delim. cbv zeta.
  set (found := map (fun d => rfind in_text d 1 page) delims).
  assert (Hfound : forall z, In z found -> z <> -1 ->
            exists d, In d delims /\ startswith (slice_from in_text z) d = true).
  { intros z Hz Hz1. apply in_map_iff in Hz. destruct Hz as [d [<- Hd]].
    exists d. split; [exact Hd | apply rfind_hit; exact Hz1]. }
  assert (Hchosen : forall z, (z = -1 \/ In z found) ->
            Some (if negb (z =? -1) then z else page) = Some c ->
            exists d, In d delims /\ startswith (slice_from in_text c) d = true).
  { intros z Hz E. injection E as E.
    destruct (Z.eqb_spec z (-1)) as [->|Hz1]; simpl in E; [congruence|].
    subst c. destruct Hz as [Hz|Hz]; [contradiction|]. auto. }
  destruct priority.
  - apply Hchosen. apply next_positive_in.
  - destruct found as [|x r] eqn:Ef; simpl; [discriminate|].
    apply Hchosen. right. apply fold_max_in.
Qed.

(** Without priority mode the cut is the rightmost one a delimiter offers.
    Either some delimiter occurs at the cut, from position 1 on and ending
    within the page; or the cut is the hard cut at the page boundary and
    no delimiter has an occurrence from position 1 on that ends within the
    page.  And no such occurrence lies to the right of the cut. *)
Theorem cut_is_rightmost (in_text : str) (c : Z)
  (Hpage : 0 <= page) (Hlong : page < len in_text)
  (Hmode : priority = false)
  (Hcut : closest_delim in_text = Some c) :
  ((exists d,
      In d delims /\ 1 <= c <= page - len d /\
      startswith (slice_from in_text c) d = true) \/
   (c = page /\
    forall d j,
      In d delims -> 1 <= j <= page - len d ->
      startswith (slice_from in_text j) d = false)) /\
  (forall d j,
     In d delims -> 1 <= j <= page - len d ->
     startswith (slice_from in_text j) d = true -> j <= c).
Proof.
  revert Hcut. unfold Pagify.closest_delim. cbv zeta. rewrite Hmode.
  set (found := map (fun d => rfind in_text d 1 page) delims).
  assert (Hfrom : forall z, In z found ->
            exists d, In d delims /\ z = rfind in_text d 1 page).
  { intros z Hz. apply in_map_iff in Hz. destruct Hz as [d [E Hd]].
    exists d. auto. }
  assert (Hto : forall d, In d delims -> In (rfind in_text d 1 page) found)
    by (intros d Hd; apply in_map_iff; exists d; auto).
  destruct found as [|x r]; simpl; [discriminate|].
  intros E. injection E as E.
  set (m := fold_left Z.max r x) in *.
  assert (Hright : forall d j,
            In d delims -> 1 <= j <= page - len d ->
            startswith (slice_from in_text j) d = true -> j <= m).
  { intros d j Hd Hj Hhit.
    transitivity (rfind in_text d 1 page).
    - apply rfind_max; [lia | exact Hj | exact Hhit].
    - apply fold_max_ge. apply Hto. exact Hd. }
  destruct (Hfrom m (fold_max_in r x)) as [d0 [Hd0 Hm]].
  destruct (Z.eqb_spec m (-1)) as [Hno|Hyes]; simpl in E; subst c.
  - split.
    + right. split; [reflexivity|]. intros d j Hd Hj.
      destruct (startswith (slice_from in_text j) d) eqn:Hhit;
        [|reflexivity].
      pose proof (Hright d j Hd Hj Hhit). lia.
    + intros d j Hd Hj Hhit. pose proof (Hright d j Hd Hj Hhit). lia.
  - split; [|exact Hright]. left. exists d0. split; [exact Hd0|].
    destruct (rfind_from_1 in_text d0 page) as [Hr|[H1 H2]];
      [congruence|].
    split; [rewrite Hm; split; [exact H1 | apply H2; lia]|].
    rewrite Hm. apply rfind_hit. congruence.
Qed.

End Config.

Lemma pagify_blank_spaces :
  forallb isspace (lit "   ") = true /\
  fst (pagify default_delims false 12 2000 3 (lit "   ")) = [].
Proof.
  split; [reflexivity|].
  apply (pagify_blank_yields_nothing default_delims false 12 2000 3).
  reflexivity.
Defined.

Lemma cut_before_delimiter_words :
  0 <= Pagify.page 0 5 /\ Pagify.page 0 5 < len Samples.words /\
  closest_delim Samples.comma_space false 0 5 Samples.words = Some 2 /\
  2 <> Pagify.page 0 5 /\
  1 <= 2 <= Pagify.page 0 5 /\
  exists d, In d Samples.comma_space /\
            startswith (slice_from Samples.words 2) d = true.
Proof.
  assert (H0 : 0 <= Pagify.page 0 5) by (vm_compute; discriminate).
  assert (H1 : Pagify.page 0 5 < len Samples.words) by reflexivity.
  assert (H2 : 2 <> Pagify.page 0 5) by (vm_compute; discriminate).
  split; [exact H0|]. split; [exact H1|]. split; [reflexivity|].
  split; [exact H2|].
  exact (cut_before_delimiter Samples.comma_space false 0 5 Samples.words 2
           H0 H1 eq_refl H2).
Defined.

Lemma cut_is_rightmost_words :
  0 <= Pagify.page 0 5 /\ Pagify.page 0 5 < len Samples.words /\
  closest_delim Samples.comma_space false 0 5 Samples.words = Some 2 /\
  ((exists d,
      In d Samples.comma_space /\ 1 <= 2 <= Pagify.page 0 5 - len d /\
      startswith (slice_from Samples.words 2) d = true) \/
   (2 = Pagify.page 0 5 /\
    forall d j,
      In d Samples.comma_space -> 1 <= j <= Pagify.page 0 5 - len d ->
      startswith (slice_from Samples.words j) d = false)) /\
  (forall d j,
     In d Samples.comma_space -> 1 <= j <= Pagify.page 0 5 - len d ->
     startswith (slice_from Samples.words j) d = true -> j <= 2).
Proof.
  assert (H0 : 0 <= Pagify.page 0 5) by (vm_compute; discriminate).
  assert (H1 : Pagify.page 0 5 < len Samples.words) by reflexivity.
  split; [exact H0|]. split; [exact H1|]. split; [reflexivity|].
  exact (cut_is_rightmost Samples.comma_space false 0 5 Samples.words 2
           H0 H1 eq_refl eq_refl).
Defined.

End PagifyCuts.

(** ** What [send_blocks] posts *)

Module SendFacts.

Import PyStrFacts PagifyFacts Console Wire.

Lemma len_json_content (text : str) : len (json_content text) = len text + 4.
Proof.
  unfold json_content. rewrite !len_app.
  change (len smiley) with 1. change (len newline) with 1. lia.
Qed.

Lemma len_code_block (page : str) : len (code_block page) = len page + 10.
Proof.
  unfold code_block. rewrite !len_app.
  change (len (lit "```py")) with 5. change (len newline) with 1.
  change (len fence) with 3. lia.
Qed.

Lemma fold_send_trace (channel : str) (pages : list str) (w : world) :
  trace (fold_left (fun w' page => send channel (code_block page) w') pages w)
  = trace w
    ++ map (fun page => Post channel (json_content (code_block page))) pages.
Proof.
  revert w. induction pages as [|page pages IH]; intros w; simpl.
  - symmetry. apply app_nil_r.
  - rewrite IH. simpl. rewrite <- app_assoc. reflexivity.
Qed.

Lemma send_blocks_trace (channel text : str) (w : world) :
  trace (send_blocks channel text w)
  = trace w
    ++ map (fun page => Post channel (json_content (code_block page)))
         (pagify_default text).
Proof. apply fold_send_trace. Qed.

(** [send_blocks] makes one request per page of the text, in order, to the
    given channel, and nothing else; the pages are those of the whole run
    of [pagify], which returns; a page has at most 1988 characters and
    the content of its request 14 more, so at most 2002. *)
Theorem send_blocks_requests (channel text : str) (w : world) :
  trace (send_blocks channel text w)
  = trace w
    ++ map (fun page => Post channel (json_content (code_block page)))
         (pagify_default text) /\
  pagify default_delims false 12 2000 (S (List.length text)) text
  = (pagify_default text, Exhausted) /\
  last_result (send_blocks channel text w) = last_result w /\
  Forall (fun page =>
            len page <= 1988 /\
            len (json_content (code_block page)) = len page + 14 /\
            len (json_content (code_block page)) <= 2002)
    (pagify_default text).
Proof.
  split; [apply send_blocks_trace|].
  split.
  { unfold pagify_default.
    destruct (pagify_leaves_loop default_delims false 12 2000
                (S (List.length text)) text) as [H|[_ [H _]]];
      [unfold Pagify.page; lia | lia | | discriminate].
    rewrite <- H. apply surjective_pairing. }
  split; [apply ConsoleFacts.send_blocks_last_result|].
  apply Forall_forall. intros page Hin.
  assert (Hpage : len page <= 1988).
  { apply (pagify_chunks_le_page default_delims false 12 2000
             (S (List.length text)) text page); [|exact Hin].
    unfold Pagify.page. lia. }
  rewrite len_json_content, len_code_block. lia.
Qed.

Lemma one_page_trace (channel text : str) (w : world) :
  existsb notspace text = true -> len text <= 1988 ->
  trace (send_blocks channel text w)
  = trace w ++ [Post channel (json_content (code_block text))].
Proof.
  intros Hvisible Hshort.
  rewrite send_blocks_trace. unfold pagify_default.
  cbn [Pagify.pagify]. unfold Pagify.page.
  destruct (Z.gtb_spec (len text) (2000 - 12)); [lia|].
  simpl. unfold emit. rewrite (PagifyCuts.visible_nonblank _ Hvisible).
  reflexivity.
Qed.

(** A text with a visible character that fits a page goes out whole, as a
    single request. *)
Theorem send_blocks_one_page (channel text : str) (w : world)
  (Hvisible : existsb notspace text = true)
  (Hshort : len text <= 1988) :
  trace (send_blocks channel text w)
  = trace w ++ [Post channel (json_content (code_block text))].
Proof. exact (one_page_trace channel text w Hvisible Hshort). Qed.

Lemma send_blocks_one_page_words :
  existsb notspace Samples.words = true /\ len Samples.words <= 1988 /\
  trace (send_blocks (lit "01CHAN") Samples.words Samples.fresh)
  = trace Samples.fresh
    ++ [Post (lit "01CHAN") (json_content (code_block Samples.words))].
Proof.
  assert (Hshort : len Samples.words <= 1988) by (vm_compute; discriminate).
  split; [reflexivity|]. split; [exact Hshort|].
  exact (send_blocks_one_page (lit "01CHAN") Samples.words Samples.fresh
           eq_refl Hshort).
Defined.

(** A text of whitespace only is not sent at all. *)
Lemma send_blocks_blank (channel text : str) (w : world) :
  forallb isspace text = true -> send_blocks channel text w = w.
Proof.
  intros Hblank. unfold send_blocks, pagify_default.
  rewrite (PagifyCuts.blank_text_no_chunks default_delims false
             12 2000 _ text Hblank).
  reflexivity.
Qed.

Lemma send_blocks_extends (channel text : str) (w : world) :
  exists new,
    trace (send_blocks channel text w) = trace w ++ new /\ ~ In Close new.
Proof.
  eexists. split; [apply send_blocks_trace|].
  intros Hin. apply in_map_iff in Hin. destruct Hin as [page [E _]].
  discriminate.
Qed.

End SendFacts.

(** ** The router *)

Module RouterFacts.

Import PyStrFacts ConsoleFacts SendFacts Console Wire.

Lemma dropwhile_head (p : char -> bool) (s t : str) (c : char) :
  dropwhile p s = c :: t -> p c = false.
Proof.
  induction s as [|x s IH]; simpl; [discriminate|].
  destruct (p x) eqn:E; [exact IH|]. intros H; injection H as -> _. exact E.
Qed.

Lemma takewhile_notspace_clean (s : str) :
  has_whitespace (takewhile notspace s) = false.
Proof.
  unfold has_whitespace, notspace. induction s as [|c s IH]; simpl;
    [reflexivity|].
  destruct (isspace c) eqn:E; simpl; [reflexivity|]. rewrite E. exact IH.
Qed.

(** The command word of a message is not empty and has no whitespace. *)
Lemma split_maxsplit1_command (text command : str) (rest : list str) :
  split_maxsplit1 text = command :: rest ->
  command <> [] /\ has_whitespace command = false.
Proof.
  unfold split_maxsplit1.
  destruct (dropwhile isspace text) as [|c t] eqn:E; [discriminate|].
  intros H. injection H as <- _. split.
  - apply dropwhile_head in E. simpl. unfold notspace. rewrite E.
    discriminate.
  - apply (takewhile_notspace_clean (c :: t)).
Qed.

Lemma takewhile_notspace_app (command tail : str) :
  has_whitespace command = false ->
  tail = [] \/ next_isspace tail = true ->
  takewhile notspace (command ++ tail) = command.
Proof.
  unfold has_whitespace, notspace.
  induction command as [|c command IH]; simpl; intros Hc Ht.
  - destruct Ht as [->|Ht]; [reflexivity|].
    destruct tail as [|x tail]; [reflexivity|]. simpl in *. rewrite Ht.
    reflexivity.
  - destruct (isspace c); simpl in *; [discriminate|]. rewrite IH; auto.
Qed.

(** A visible word followed by nothing, or by whitespace and anything, is
    the command word. *)
Lemma split_maxsplit1_app (command tail : str) :
  command <> [] -> has_whitespace command = false ->
  tail = [] \/ next_isspace tail = true ->
  exists rest, split_maxsplit1 (command ++ tail) = command :: rest.
Proof.
  intros Hne Hc Ht. unfold split_maxsplit1.
  destruct command as [|c command]; [contradiction|].
  assert (Hhead : isspace c = false).
  { unfold has_whitespace in Hc. simpl in Hc.
    destruct (isspace c); [discriminate | reflexivity]. }
  change ((c :: command) ++ tail) with (c :: (command ++ tail)).
  cbn [dropwhile]. rewrite Hhead.
  change (c :: (command ++ tail)) with ((c :: command) ++ tail).
  rewrite (takewhile_notspace_app (c :: command) tail Hc Ht).
  eexists. reflexivity.
Qed.

Lemma command_neq_spaced (command prefix word : str) :
  has_whitespace command = false -> has_whitespace prefix = true ->
  str_eqb command (prefix ++ word) = false.
Proof.
  intros Hc Hp. apply str_eqb_neq. intros ->.
  rewrite has_whitespace_app, Hp in Hc. discriminate.
Qed.

Section Bot.

Variable cfg : config.
Variable interp : interpreter.

Lemma send_sanitized_extends (channel text : str) (w : world) :
  exists new,
    trace (send_sanitized cfg channel text w) = trace w ++ new /\
    ~ In Close new.
Proof.
  unfold send_sanitized. destruct (sanitize_output cfg text) as [clean|].
  - apply send_blocks_extends.
  - exists [Uncaught (lit "AssertionError")]. split; [reflexivity|].
    intros [H|[]]; discriminate.
Qed.

Lemma send_syntax_error_extends (channel : str) (e : syntax_error)
  (w : world) :
  exists new,
    trace (send_syntax_error channel e w) = trace w ++ new /\
    ~ In Close new.
Proof.
  unfold send_syntax_error. destruct (get_syntax_error e) as [text|].
  - apply send_blocks_extends.
  - exists [Uncaught (lit "ValueError")]. split; [reflexivity|].
    intros [H|[]]; discriminate.
Qed.

(** What the console adds after the code has run closes nothing, so a
    [Close] can only be among the effects of the code. *)
Lemma after_effects (es : list effect) (w w' : world) :
  (exists new, trace w' = trace (perform es w) ++ new /\ ~ In Close new) ->
  exists new, trace w' = trace w ++ new /\ (In Close new -> In Close es).
Proof.
  intros [new [E Hn]]. exists (es ++ new). split.
  - rewrite E. simpl. apply eq_sym, app_assoc.
  - intros H. apply in_app_or in H. destruct H; [assumption | contradiction].
Qed.

Lemma eval_extends (channel body : str) (msg : message) (w : world) :
  exists new,
    trace (eval cfg interp channel body msg w) = trace w ++ new /\
    (In Close new ->
     In Close (exec_effects interp (to_compile interp body)
                 (get_environment msg w))).
Proof.
  unfold eval.
  destruct (exec_source interp (to_compile interp body)
              (get_environment msg w)) as [e|[out result|out tb|exn]].
  - destruct (send_syntax_error_extends channel e w) as [new [E Hn]].
    exists new. split; [exact E | intros H; contradiction].
  - apply after_effects. destruct (negb (is_none result)).
    + apply (send_sanitized_extends channel _ (set_last_result result _)).
    + apply send_sanitized_extends.
  - apply after_effects. simpl. apply send_sanitized_extends.
  - apply after_effects. exists [Uncaught exn]. split; [reflexivity|].
    intros [H|[]]; discriminate.
Qed.

Lemma debug_extends (channel body : str) (msg : message) (w : world) :
  exists new,
    trace (debug cfg interp channel body msg w) = trace w ++ new /\
    (In Close new ->
     In Close (eval_effects interp (cleanup_code body)
                 (get_environment msg w))).
Proof.
  unfold debug. apply after_effects.
  destruct (eval_source interp (cleanup_code body)
              (get_environment msg w)) as [e|tb|exn|v].
  - apply send_syntax_error_extends.
  - apply send_blocks_extends.
  - exists [Uncaught exn]. split; [reflexivity|].
    intros [H|[]]; discriminate.
  - destruct (maybe_await v) as [result|[tb|e]].
    + apply (send_sanitized_extends channel _ (set_last_result result _)).
    + apply send_blocks_extends.
    + apply send_syntax_error_extends.
Qed.

(** With whitespace anywhere in the prefix no message is ever acted on:
    the command word of a message has none, so it equals no prefixed
    command. *)
Theorem on_message_mute_with_spaced_prefix (msg : message) (w : world)
  (Hprefix : has_whitespace (PREFIX cfg) = true) :
  on_message cfg interp msg w = w.
Proof.
  unfold on_message.
  destruct (negb (str_eqb (author_id msg) (owner_id cfg))); [reflexivity|].
  destruct (content msg) as [text|]; [|reflexivity].
  destruct (split_maxsplit1 text) as [|command rest] eqn:E; [reflexivity|].
  destruct (split_maxsplit1_command text command rest E) as [_ Hc].
  rewrite !(command_neq_spaced command (PREFIX cfg) _ Hc Hprefix).
  destruct (len _ =? 0); reflexivity.
Qed.

(** With a prefix free of whitespace, the owner's [ping] is answered with
    one [Pong!] and nothing else changes, whatever follows the command
    word. *)
Theorem on_message_ping (msg : message) (w : world) (tail : str)
  (Howner : author_id msg = owner_id cfg)
  (Hprefix : has_whitespace (PREFIX cfg) = false)
  (Htail : tail = [] \/ next_isspace tail = true)
  (Htext : content msg = Some ((PREFIX cfg ++ lit "ping") ++ tail)) :
  trace (on_message cfg interp msg w)
  = trace w ++ [Post (channel_id msg) (json_content (lit "Pong!"))] /\
  last_result (on_message cfg interp msg w) = last_result w.
Proof.
  destruct (split_maxsplit1_app (PREFIX cfg ++ lit "ping") tail)
    as [rest Hsplit]; [| |exact Htail|].
  - destruct (PREFIX cfg); discriminate.
  - rewrite has_whitespace_app, Hprefix. reflexivity.
  - unfold on_message.
    rewrite Howner, str_eqb_refl, Htext, Hsplit, str_eqb_refl.
    split; reflexivity.
Qed.

(** The handler only ever adds to what has happened.  The connection is
    closed in the course of it only when the author is the owner and
    either the command is [shutdown], or the command is [eval] or [debug]
    and the code that was run closed the connection itself: the replies of
    the console and of [ping] close nothing. *)
Theorem on_message_close_origin (msg : message) (w : world) :
  exists new,
    trace (on_message cfg interp msg w) = trace w ++ new /\
    (In Close new ->
     author_id msg = owner_id cfg /\
     exists text rest,
       content msg = Some text /\
       (split_maxsplit1 text = (PREFIX cfg ++ lit "shutdown") :: rest \/
        (exists body,
           split_maxsplit1 text = [PREFIX cfg ++ lit "eval"; body] /\
           In Close (exec_effects interp (to_compile interp body)
                       (get_environment msg w))) \/
        (exists body,
           split_maxsplit1 text = [PREFIX cfg ++ lit "debug"; body] /\
           In Close (eval_effects interp (cleanup_code body)
                       (get_environment msg w))))).
Proof.
  unfold on_message.
  destruct (str_eqb (author_id msg) (owner_id cfg)) eqn:Eo; simpl negb;
    cbv iota;
    [|exists []; split; [symmetry; apply app_nil_r | intros []]].
  apply str_eqb_eq in Eo.
  destruct (content msg) as [text|] eqn:Et;
    [|exists []; split; [symmetry; apply app_nil_r | intros []]].
  destruct (split_maxsplit1 text) as [|command rest] eqn:Es;
    [exists []; split; [symmetry; apply app_nil_r | intros []]|].
  destruct (str_eqb command (PREFIX cfg ++ lit "ping")).
  { eexists. split; [reflexivity|]. intros [H|[]]; discriminate. }
  destruct (str_eqb command (PREFIX cfg ++ lit "shutdown")) eqn:Ec.
  { apply str_eqb_eq in Ec. subst command. eexists.
    split; [simpl; rewrite <- app_assoc; reflexivity|].
    intros _. split; [exact Eo|]. exists text, rest. auto. }
  destruct (len _ =? 0) eqn:Eb;
    [exists []; split; [symmetry; apply app_nil_r | intros []]|].
  assert (Hrest : exists body, rest = [body] /\
            match rest with [b] => b | _ => [] end = body).
  { destruct rest as [|b [|b' rest]]; try discriminate Eb.
    exists b. split; reflexivity. }
  destruct Hrest as [body [-> _]]. cbv beta iota zeta.
  destruct (str_eqb command (PREFIX cfg ++ lit "eval")) eqn:Ee.
  { apply str_eqb_eq in Ee. subst command.
    destruct (eval_extends (channel_id msg) body msg w) as [new [E Hn]].
    exists new. split; [exact E|]. intros H. split; [exact Eo|].
    exists text, [body]. split; [reflexivity|]. right; left.
    exists body. split; [exact Es | exact (Hn H)]. }
  destruct (str_eqb command (PREFIX cfg ++ lit "debug")) eqn:Ed.
  { apply str_eqb_eq in Ed. subst command.
    destruct (debug_extends (channel_id msg) body msg w) as [new [E Hn]].
    exists new. split; [exact E|]. intros H. split; [exact Eo|].
    exists text, [body]. split; [reflexivity|]. right; right.
    exists body. split; [exact Es | exact (Hn H)]. }
  exists []. split; [symmetry; apply app_nil_r | intros []].
Qed.

(** The handler does something only for the owner and only when the first
    word of the content is the prefix followed by one of the four command
    words. *)
Theorem on_message_acts_on_commands_only (msg : message) (w : world)
  (Hacts : on_message cfg interp msg w <> w) :
  author_id msg = owner_id cfg /\
  exists text word rest,
    content msg = Some text /\
    split_maxsplit1 text = (PREFIX cfg ++ word) :: rest /\
    In word command_words.
Proof.
  revert Hacts. unfold on_message.
  destruct (str_eqb (author_id msg) (owner_id cfg)) eqn:Eo; simpl negb;
    cbv iota; [|congruence].
  apply str_eqb_eq in Eo.
  destruct (content msg) as [text|] eqn:Et; [|congruence].
  destruct (split_maxsplit1 text) as [|command rest] eqn:Es; [congruence|].
  assert (Hword : forall word, In word command_words ->
            str_eqb command (PREFIX cfg ++ word) = true ->
            author_id msg = owner_id cfg /\
            exists text' word' rest',
              Some text = Some text' /\
              split_maxsplit1 text' = (PREFIX cfg ++ word') :: rest' /\
              In word' command_words).
  { intros word Hin E. apply str_eqb_eq in E. subst command.
    split; [exact Eo|]. exists text, word, rest. auto. }
  destruct (str_eqb command (PREFIX cfg ++ lit "ping")) eqn:E1;
    [intros _; apply (Hword (lit "ping")); simpl; auto|].
  destruct (str_eqb command (PREFIX cfg ++ lit "shutdown")) eqn:E2;
    [intros _; apply (Hword (lit "shutdown")); simpl; auto|].
  destruct (len _ =? 0); [congruence|].
  destruct (str_eqb command (PREFIX cfg ++ lit "eval")) eqn:E3;
    [intros _; apply (Hword (lit "eval")); simpl; auto|].
  destruct (str_eqb command (PREFIX cfg ++ lit "debug")) eqn:E4;
    [intros _; apply (Hword (lit "debug")); simpl; auto | congruence].
Qed.

End Bot.

Lemma on_message_mute_bang_space :
  has_whitespace (PREFIX Samples.bang_space) = true /\
  on_message Samples.bang_space Samples.quiet
    (Samples.from_owner (lit "! shutdown")) Samples.fresh
  = Samples.fresh.
Proof.
  split; [reflexivity|].
  apply (on_message_mute_with_spaced_prefix Samples.bang_space Samples.quiet).
  reflexivity.
Defined.

Lemma on_message_ping_bang :
  next_isspace (lit " now") = true /\
  content (Samples.from_owner (lit "!ping now"))
  = Some ((PREFIX Samples.bang ++ lit "ping") ++ lit " now") /\
  trace (on_message Samples.bang Samples.quiet
           (Samples.from_owner (lit "!ping now")) Samples.fresh)
  = trace Samples.fresh
    ++ [Post (lit "01CHAN") (json_content (lit "Pong!"))].
Proof.
  split; [reflexivity|]. split; [reflexivity|].
  apply (on_message_ping Samples.bang Samples.quiet
           (Samples.from_owner (lit "!ping now")) Samples.fresh (lit " now"));
    [reflexivity | reflexivity | right; reflexivity | reflexivity].
Defined.

Lemma on_message_acts_on_ping :
  on_message Samples.bang Samples.quiet (Samples.from_owner (lit "!ping"))
    Samples.fresh <> Samples.fresh /\
  exists text word rest,
    content (Samples.from_owner (lit "!ping")) = Some text /\
    split_maxsplit1 text = (PREFIX Samples.bang ++ word) :: rest /\
    In word command_words.
Proof.
  assert (Hacts : on_message Samples.bang Samples.quiet
                    (Samples.from_owner (lit "!ping")) Samples.fresh
                  <> Samples.fresh) by (vm_compute; discriminate).
  split; [exact Hacts|].
  exact (proj2 (on_message_acts_on_commands_only Samples.bang Samples.quiet
                  (Samples.from_owner (lit "!ping")) Samples.fresh Hacts)).
Defined.

End RouterFacts.

(** ** The prefix check *)

Module PrefixFacts.

Import PyStrFacts ConsoleFacts RouterFacts Console.

Lemma length_dropwhile (p : char -> bool) (s : str) :
  (List.length (dropwhile p s) <= List.length s)%nat.
Proof.
  induction s as [|c s IH]; simpl; [lia|].
  destruct (p c); simpl; lia.
Qed.

Lemma dropwhile_app_all (p : char -> bool) (a r : str) :
  dropwhile p a = [] -> dropwhile p (a ++ r) = dropwhile p r.
Proof.
  induction a as [|c a IH]; simpl; [reflexivity|].
  destruct (p c); [exact IH | discriminate].
Qed.

Lemma dropwhile_app_some (p : char -> bool) (a r : str) :
  dropwhile p a <> [] -> dropwhile p (a ++ r) = dropwhile p a ++ r.
Proof.
  induction a as [|c a IH]; simpl; [congruence|].
  destruct (p c); [exact IH | reflexivity].
Qed.

Lemma dropwhile_app_stop (p : char -> bool) (u b : str) (c : char) :
  p c = false -> dropwhile p (u ++ c :: b) = dropwhile p u ++ c :: b.
Proof.
  intros Hc. induction u as [|x u IH]; simpl; [rewrite Hc; reflexivity|].
  destruct (p x); [exact IH | reflexivity].
Qed.

Lemma takewhile_app_stop (p : char -> bool) (u b : str) (c : char) :
  p c = false -> takewhile p (u ++ c :: b) = takewhile p u.
Proof.
  intros Hc. induction u as [|x u IH]; simpl; [rewrite Hc; reflexivity|].
  destruct (p x); [rewrite IH; reflexivity | reflexivity].
Qed.

(** Fuel beyond the length of the text changes nothing. *)
Lemma split_runs_fuel (f1 f2 : nat) (s : str) :
  (List.length s <= f1)%nat -> (List.length s <= f2)%nat ->
  split_runs f1 s = split_runs f2 s.
Proof.
  revert f2 s. induction f1 as [|f1 IH]; intros f2 s H1 H2.
  - destruct s; [|simpl in H1; lia]. destruct f2; reflexivity.
  - destruct f2 as [|f2].
    + destruct s; [reflexivity | simpl in H2; lia].
    + simpl. destruct (dropwhile isspace s) as [|x t] eqn:E; [reflexivity|].
      f_equal. pose proof (length_dropwhile isspace s) as Hs.
      rewrite E in Hs. simpl in Hs.
      pose proof (dropwhile_head _ _ _ _ E) as Hx.
      simpl. unfold notspace at 1 3. rewrite Hx. simpl.
      pose proof (length_dropwhile notspace t).
      apply IH; lia.
Qed.

(** Whitespace between two texts separates their runs. *)
Lemma split_runs_app_space (c : char) (b : str) (f : nat) :
  isspace c = true ->
  forall (a : str) (f' : nat),
    (List.length a <= f)%nat -> (List.length (a ++ c :: b) <= f')%nat ->
    split_runs f' (a ++ c :: b) = split_runs f a ++ split b.
Proof.
  intros Hc. assert (Hnc : notspace c = false)
    by (unfold notspace; rewrite Hc; reflexivity).
  unfold split.
  induction f as [|f IH]; intros a f' Ha Hf'.
  - destruct a; [|simpl in Ha; lia]. simpl in *.
    destruct f' as [|f']; [lia|].
    rewrite <- (split_runs_fuel (S f') (List.length b) b) by lia.
    simpl. rewrite Hc. reflexivity.
  - rewrite length_app in Hf'. simpl in Hf'.
    destruct f' as [|f']; [lia|]. simpl.
    destruct (dropwhile isspace a) as [|x t] eqn:E.
    + rewrite (dropwhile_app_all _ a (c :: b) E). simpl. rewrite Hc.
      rewrite <- (split_runs_fuel (S f') (List.length b) b) by lia.
      reflexivity.
    + rewrite (dropwhile_app_some _ a (c :: b)) by congruence. rewrite E.
      pose proof (length_dropwhile isspace a) as Hs.
      rewrite E in Hs. simpl in Hs.
      pose proof (dropwhile_head _ _ _ _ E) as Hx.
      assert (Hnx : notspace x = true)
        by (unfold notspace; rewrite Hx; reflexivity).
      simpl. rewrite Hnx.
      rewrite (takewhile_app_stop notspace t b c Hnc).
      rewrite (dropwhile_app_stop notspace t b c Hnc).
      simpl. f_equal.
      pose proof (length_dropwhile notspace t).
      apply IH; [lia | rewrite length_app; simpl; lia].
Qed.

Lemma split_app_space (a b : str) (c : char) :
  isspace c = true -> split (a ++ c :: b) = split a ++ split b.
Proof.
  intros Hc. unfold split at 1 2.
  apply split_runs_app_space; [exact Hc | lia | lia].
Qed.

Lemma split_blank (s : str) : forallb isspace s = true -> split s = [].
Proof.
  intros H. unfold split. destruct (List.length s); [reflexivity|].
  simpl. apply dropwhile_nil in H. rewrite H. reflexivity.
Qed.

Lemma split_with_visible (s : str) :
  existsb notspace s = true -> exists r rs, split s = r :: rs.
Proof.
  intros H. unfold split. destruct s as [|c s]; [discriminate|].
  cbn [List.length split_runs].
  destruct (dropwhile isspace (c :: s)) as [|x t] eqn:E.
  - apply dropwhile_nil in E. rewrite forallb_existsb_neg, H in E.
    discriminate.
  - eexists. eexists. reflexivity.
Qed.

(** What the prefix check turns down: a prefix with no visible character
    (the empty one too), and a prefix with whitespace somewhere between
    two visible characters. *)
Theorem load_prefix_rejects (p a b : str) (c : char) :
  (forallb isspace p = true ->
   load_prefix (Some p)
   = RuntimeError (lit "can't have prefix with spaces")) /\
  (existsb notspace a = true -> isspace c = true ->
   existsb notspace b = true ->
   load_prefix (Some (a ++ c :: b))
   = RuntimeError (lit "can't have prefix with spaces")).
Proof.
  split.
  - intros H. unfold load_prefix. rewrite (split_blank p H). reflexivity.
  - intros Ha Hc Hb. unfold load_prefix. rewrite (split_app_space a b c Hc).
    destruct (split_with_visible a Ha) as [r [rs ->]].
    destruct (split_with_visible b Hb) as [r' [rs' ->]].
    simpl. rewrite length_app. simpl.
    destruct (List.length rs + S (List.length rs'))%nat eqn:E; [lia|].
    reflexivity.
Qed.

Lemma load_prefix_rejects_two_words :
  (forallb isspace (lit " ") = true /\
   load_prefix (Some (lit " "))
   = RuntimeError (lit "can't have prefix with spaces")) /\
  (existsb notspace (lit "hey") = true /\ isspace 32%N = true /\
   existsb notspace (lit "bot") = true /\
   load_prefix (Some (lit "hey" ++ 32%N :: lit "bot"))
   = RuntimeError (lit "can't have prefix with spaces")).
Proof.
  split.
  - split; [reflexivity|].
    exact (proj1 (load_prefix_rejects (lit " ") [] [] 0%N) eq_refl).
  - split; [reflexivity|]. split; [reflexivity|]. split; [reflexivity|].
    exact (proj2 (load_prefix_rejects [] (lit "hey") (lit "bot") 32%N)
             eq_refl eq_refl eq_refl).
Defined.

End PrefixFacts.

(** ** [cleanup_code] *)

Module CleanupFacts.

Import PyStrFacts RouterFacts PrefixFacts Console.

Lemma startswith_app (p s : str) : startswith (p ++ s) p = true.
Proof.
  induction p as [|c p IH]; simpl; [destruct s; reflexivity|].
  unfold char_eqb. rewrite N.eqb_refl. exact IH.
Qed.

Lemma endswith_app (s p : str) : endswith (s ++ p) p = true.
Proof. unfold endswith. rewrite rev_app_distr. apply startswith_app. Qed.

(** [(x + "```")[:-3]] *)
Lemma slice_to_drop_fence (x : str) : slice_to (x ++ fence) (-3) = x.
Proof.
  unfold slice_to, slice_index. rewrite len_app.
  change (len fence) with 3. replace (-3 <? 0) with true by reflexivity.
  pose proof (len_nonneg x).
  replace (Z.to_nat (Z.max 0 (len x + 3 + -3))) with (List.length x)
    by (unfold len in *; lia).
  rewrite firstn_app, firstn_all, Nat.sub_diag. simpl. apply app_nil_r.
Qed.

Lemma isspace_not_t (c : char) :
  isspace c = true -> char_eqb 116%N c = false.
Proof.
  intros H. unfold char_eqb. destruct (N.eqb_spec 116%N c) as [<-|];
    [discriminate | reflexivity].
Qed.

(** A block fenced with [```py] or [```python] and whitespace after the
    tag comes out without the fences and the tag; the whitespace that
    followed the tag stays. *)
Theorem cleanup_code_tagged_block (tag code : str) (c : char)
  (Htag : tag = lit "py" \/ tag = lit "python")
  (Hspace : isspace c = true) :
  cleanup_code (fence ++ tag ++ c :: code ++ fence) = c :: code.
Proof.
  unfold cleanup_code.
  assert (Hend : endswith (fence ++ tag ++ c :: code ++ fence) fence = true).
  { replace (fence ++ tag ++ c :: code ++ fence)
      with ((fence ++ tag ++ c :: code) ++ fence)
      by (rewrite <- !app_assoc; reflexivity).
    apply endswith_app. }
  rewrite Hend, (startswith_app fence). simpl andb. cbv iota.
  unfold strip_start_code_block.
  destruct Htag as [-> | ->].
  - pose proof (isspace_not_t c Hspace) as Ht. unfold char_eqb, N.eqb in Ht.
    simpl. rewrite Ht, Hspace. simpl.
    apply (slice_to_drop_fence (c :: code)).
  - simpl. rewrite Hspace. simpl. apply (slice_to_drop_fence (c :: code)).
Qed.

Lemma cleanup_code_python_block :
  isspace 10%N = true /\
  cleanup_code (fence ++ lit "python" ++ 10%N :: lit "print(1)" ++ fence)
  = 10%N :: lit "print(1)".
Proof.
  split; [reflexivity|].
  apply (cleanup_code_tagged_block (lit "python") (lit "print(1)") 10%N);
    [right; reflexivity | reflexivity].
Defined.

Lemma startswith_iff (s p : str) :
  startswith s p = true <-> exists r, s = p ++ r.
Proof.
  revert s. induction p as [|x p IH]; intros s.
  - destruct s; simpl; split; eauto.
  - destruct s as [|y s]; cbn [startswith].
    + split; [discriminate | intros [r H]; discriminate].
    + unfold char_eqb. rewrite andb_true_iff, N.eqb_eq, IH. split.
      * intros [-> [r ->]]. exists r. reflexivity.
      * intros [r H]. injection H as -> ->. eauto.
Qed.

(** Code that does not begin with [py] is not taken for a language tag. *)
Lemma no_tag_after_fence (code rest : str) :
  startswith code (lit "py") = false ->
  startswith (fence ++ code ++ fence) (fence ++ lit "py" ++ rest) = false.
Proof.
  intros Hcode.
  destruct (startswith (fence ++ code ++ fence) (fence ++ lit "py" ++ rest))
    eqn:E; [|reflexivity].
  exfalso. apply startswith_iff in E. destruct E as [r E].
  rewrite <- !app_assoc in E. apply app_inv_head in E.
  destruct code as [|a [|b code]].
  - vm_compute in E. discriminate.
  - vm_compute in E. discriminate.
  - vm_compute in E. injection E as -> -> _.
    destruct code; discriminate.
Qed.

(** A block between bare fences comes out without them, when the code
    does not itself begin with [py]. *)
Theorem cleanup_code_bare_block (code : str)
  (Hcode : startswith code (lit "py") = false) :
  cleanup_code (fence ++ code ++ fence) = code.
Proof.
  unfold cleanup_code.
  assert (Hend : endswith (fence ++ code ++ fence) fence = true).
  { rewrite app_assoc. apply endswith_app. }
  rewrite Hend, (startswith_app fence). simpl andb. cbv iota.
  unfold strip_start_code_block.
  change (lit "```python") with (fence ++ lit "py" ++ lit "thon").
  change (lit "```py") with (fence ++ lit "py" ++ []).
  rewrite !(no_tag_after_fence code _ Hcode), (startswith_app fence).
  simpl andb. cbv iota. apply slice_to_drop_fence.
Qed.

Lemma cleanup_code_bare_print :
  startswith (lit "print(1)") (lit "py") = false /\
  cleanup_code (fence ++ lit "print(1)" ++ fence) = lit "print(1)".
Proof.
  split; [reflexivity|].
  apply (cleanup_code_bare_block (lit "print(1)")). reflexivity.
Defined.

Lemma forallb_dropwhile_nil (p : char -> bool) (s : str) :
  forallb p s = true -> dropwhile p s = [].
Proof. apply dropwhile_nil. Qed.

Lemma forallb_rev (p : char -> bool) (s : str) :
  forallb p (rev s) = forallb p s.
Proof.
  induction s as [|c s IH]; simpl; [reflexivity|].
  rewrite forallb_app, IH. simpl. rewrite andb_true_r. apply andb_comm.
Qed.

(** Stripping ignores padding made of the stripped characters. *)
Lemma strip_with_pad (p : char -> bool) (l s r : str) :
  forallb p l = true -> forallb p r = true ->
  strip_with p (l ++ s ++ r) = strip_with p s.
Proof.
  intros Hl Hr. unfold strip_with.
  rewrite (dropwhile_app_all p l (s ++ r) (forallb_dropwhile_nil p l Hl)).
  destruct (dropwhile p s) as [|x t] eqn:E.
  - rewrite (dropwhile_app_all p s r E), (forallb_dropwhile_nil p r Hr).
    reflexivity.
  - rewrite (dropwhile_app_some p s r) by congruence. rewrite E.
    rewrite rev_app_distr.
    rewrite (dropwhile_app_all p (rev r) (rev (x :: t)));
      [reflexivity|].
    apply forallb_dropwhile_nil. rewrite forallb_rev. exact Hr.
Qed.

(** Outside the fenced case, backticks, spaces and newlines around the
    code do not count: the result is the code stripped of them. *)
Theorem cleanup_code_unfenced (l code r : str)
  (Hl : forallb backtick_space_newline l = true)
  (Hr : forallb backtick_space_newline r = true)
  (Hunfenced : startswith (l ++ code ++ r) fence
               && endswith (l ++ code ++ r) fence = false) :
  cleanup_code (l ++ code ++ r) = strip_with backtick_space_newline code.
Proof.
  unfold cleanup_code. rewrite Hunfenced. apply strip_with_pad; assumption.
Qed.

Lemma cleanup_code_inline_print :
  forallb backtick_space_newline (lit "` ") = true /\
  forallb backtick_space_newline (lit " `") = true /\
  startswith (lit "` " ++ lit "print(1)" ++ lit " `") fence
  && endswith (lit "` " ++ lit "print(1)" ++ lit " `") fence = false /\
  cleanup_code (lit "` " ++ lit "print(1)" ++ lit " `") = lit "print(1)".
Proof.
  split; [reflexivity|]. split; [reflexivity|]. split; [reflexivity|].
  apply (cleanup_code_unfenced (lit "` ") (lit "print(1)") (lit " `"));
    reflexivity.
Defined.

(** Outside the fenced case the result neither begins nor ends with a
    backtick, a space or a newline, and cleaning it again changes
    nothing. *)
Theorem cleanup_code_unfenced_stripped (content : str)
  (Hunfenced : startswith content fence && endswith content fence = false) :
  let code := cleanup_code content in
  dropwhile backtick_space_newline code = code /\
  dropwhile backtick_space_newline (rev code) = rev code /\
  cleanup_code code = code.
Proof.
  intros code.
  assert (Hcode : code = strip_with backtick_space_newline content)
    by (unfold code, cleanup_code; rewrite Hunfenced; reflexivity).
  assert (Hidem : forall s, dropwhile backtick_space_newline
                              (dropwhile backtick_space_newline s)
                            = dropwhile backtick_space_newline s).
  { intros s. induction s as [|c s IH]; simpl; [reflexivity|].
    destruct (backtick_space_newline c) eqn:E; [exact IH|].
    simpl. rewrite E. reflexivity. }
  assert (Hfront : dropwhile backtick_space_newline code = code).
  { rewrite Hcode. unfold strip_with.
    destruct (dropwhile backtick_space_newline content) as [|x t] eqn:E;
      [reflexivity|].
    pose proof (dropwhile_head _ _ _ _ E) as Hx.
    assert (Hu : dropwhile backtick_space_newline (rev (x :: t))
                 = dropwhile backtick_space_newline (rev t) ++ [x])
      by apply (dropwhile_app_stop backtick_space_newline (rev t) [] x Hx).
    rewrite Hu, rev_app_distr. simpl. rewrite Hx. reflexivity. }
  assert (Hback : dropwhile backtick_space_newline (rev code) = rev code).
  { rewrite Hcode. unfold strip_with. rewrite rev_involutive.
    apply Hidem. }
  split; [exact Hfront|]. split; [exact Hback|].
  unfold cleanup_code.
  assert (Hstart : startswith code fence = false).
  { destruct code as [|x t]; [reflexivity|]. simpl in Hfront.
    destruct (backtick_space_newline x) eqn:Ex.
    - exfalso. pose proof (length_dropwhile backtick_space_newline t) as Hlen.
      rewrite Hfront in Hlen. simpl in Hlen. lia.
    - destruct (startswith (x :: t) fence) eqn:Es; [|reflexivity].
      apply startswith_iff in Es. destruct Es as [r Es].
      vm_compute in Es. injection Es as -> _. discriminate Ex. }
  rewrite Hstart. simpl andb. cbv iota.
  unfold strip_with. rewrite Hfront, Hback. apply rev_involutive.
Qed.

Lemma cleanup_code_unfenced_stripped_print :
  startswith (lit "` print(1) `") fence
  && endswith (lit "` print(1) `") fence = false /\
  cleanup_code (cleanup_code (lit "` print(1) `"))
  = cleanup_code (lit "` print(1) `").
Proof.
  split; [reflexivity|].
  exact (proj2 (proj2 (cleanup_code_unfenced_stripped (lit "` print(1) `")
                         eq_refl))).
Defined.

End CleanupFacts.

(** ** [sanitize_output] *)

Module SanitizeFacts.

Import PyStrFacts CleanupFacts Console Wire.

Lemma occurs_unfold (sub s : str) :
  occurs sub s
  = startswith s sub || match s with [] => false | _ :: r => occurs sub r end.
Proof. destruct s; reflexivity. Qed.

Lemma sanitize_output_active (cfg : config) (text : str) :
  sanitize_output cfg text
  = match active_token (auth cfg) with
    | None => None
    | Some t => Some (re_sub_escaped t EXPUNGED text re_I)
    end.
Proof. reflexivity. Qed.

(** Where the pattern does not occur, nothing is replaced. *)
Lemma sub_scan_absent (pat repl : str) (budget : option nat) (s : str) :
  occurs pat s = false -> sub_scan pat repl budget 0 s = s.
Proof.
  induction s as [|c s IH]; intros H; rewrite occurs_unfold in H;
    apply orb_false_iff in H; destruct H as [Hs Hr].
  - destruct budget as [[|n]|]; cbn [sub_scan]; try reflexivity;
      rewrite Hs; reflexivity.
  - destruct budget as [[|n]|]; cbn [sub_scan]; try reflexivity;
      rewrite Hs, (IH Hr); reflexivity.
Qed.

Lemma startswith_firstn (s p : str) :
  startswith s p = startswith (firstn (List.length p) s) p.
Proof.
  revert s. induction p as [|x p IH]; intros s.
  - destruct s; reflexivity.
  - destruct s as [|y s]; [reflexivity|]. cbn [List.length firstn startswith].
    rewrite <- IH. reflexivity.
Qed.

(** A match at the head of [a ++ pat ++ rest], with [a] not empty, lies
    within [a] followed by [pat] without its last character. *)
Lemma startswith_inside (pat a rest : str) :
  pat <> [] -> a <> [] ->
  startswith (a ++ pat ++ rest) pat = startswith (a ++ removelast pat) pat.
Proof.
  intros Hp Ha.
  rewrite (startswith_firstn (a ++ pat ++ rest)).
  rewrite (startswith_firstn (a ++ removelast pat)).
  f_equal.
  assert (Hpat : pat = removelast pat ++ [last pat 0%N])
    by (apply app_removelast_last; exact Hp).
  assert (Hlen : (List.length pat <= List.length (a ++ removelast pat))%nat).
  { rewrite length_app. apply (f_equal (@List.length char)) in Hpat.
    rewrite length_app in Hpat. simpl in Hpat.
    destruct a; [contradiction | simpl; lia]. }
  replace (a ++ pat ++ rest)
    with ((a ++ removelast pat) ++ [last pat 0%N] ++ rest)
    by (rewrite Hpat at 3; rewrite <- !app_assoc; reflexivity).
  rewrite firstn_app.
  replace (List.length pat - List.length (a ++ removelast pat))%nat
    with O by lia.
  simpl. apply app_nil_r.
Qed.

(** The characters of a match still to be passed over are dropped. *)
Lemma sub_scan_skip (pat repl : str) (budget : option nat) (u rest : str) :
  sub_scan pat repl budget (List.length u) (u ++ rest)
  = sub_scan pat repl budget 0 rest.
Proof.
  induction u as [|c u IH]; simpl; [destruct rest; reflexivity | exact IH].
Qed.

(** The leftmost occurrence is replaced and the scan goes on behind it
    with one replacement less to spend. *)
Lemma sub_scan_first (pat repl : str) (n : nat) (a rest : str) :
  pat <> [] -> occurs pat (a ++ removelast pat) = false ->
  sub_scan pat repl (Some (S n)) 0 (a ++ pat ++ rest)
  = a ++ repl ++ sub_scan pat repl (Some n) 0 rest.
Proof.
  intros Hp. induction a as [|y a IH]; intros H.
  - destruct pat as [|x p]; [contradiction|].
    change ([] ++ (x :: p) ++ rest) with (x :: (p ++ rest)).
    cbn [sub_scan].
    change (x :: (p ++ rest)) with ((x :: p) ++ rest).
    rewrite startswith_app. cbn [spend Nat.pred app].
    rewrite sub_scan_skip. reflexivity.
  - rewrite occurs_unfold in H. apply orb_false_iff in H.
    destruct H as [Hs Hr].
    change ((y :: a) ++ pat ++ rest) with (y :: (a ++ pat ++ rest)).
    cbn [sub_scan].
    change (y :: (a ++ pat ++ rest)) with ((y :: a) ++ pat ++ rest).
    rewrite (startswith_inside pat (y :: a) rest Hp) by discriminate.
    rewrite Hs, (IH Hr). reflexivity.
Qed.

Lemma sanitize_absent (cfg : config) (t text : str) :
  active_token (auth cfg) = Some t -> occurs t text = false ->
  sanitize_output cfg text = Some text.
Proof.
  intros Htoken Habsent.
  rewrite sanitize_output_active, Htoken. unfold re_sub_escaped.
  rewrite (sub_scan_absent t EXPUNGED _ text Habsent). reflexivity.
Qed.

(** A text in which the active token does not occur is passed on as it
    is. *)
Theorem sanitize_output_verbatim (cfg : config) (t text : str)
  (Htoken : active_token (auth cfg) = Some t)
  (Habsent : occurs t text = false) :
  sanitize_output cfg text = Some text.
Proof. exact (sanitize_absent cfg t text Htoken Habsent). Qed.

Lemma sanitize_output_verbatim_session :
  active_token (auth MoreSamples.user_session) = Some (lit "s3cret") /\
  occurs (lit "s3cret") (lit "2 + 2 = 4") = false /\
  sanitize_output MoreSamples.user_session (lit "2 + 2 = 4")
  = Some (lit "2 + 2 = 4").
Proof.
  split; [reflexivity|]. split; [reflexivity|].
  apply (sanitize_output_verbatim MoreSamples.user_session (lit "s3cret"));
    reflexivity.
Defined.

(** The first occurrence of the active token is replaced by the
    placeholder, and so is the second; what comes after the second
    occurrence is passed on as it is, occurrences of the token
    included. *)
Theorem sanitize_output_replaces (cfg : config) (t a b c : str)
  (Htoken : active_token (auth cfg) = Some t)
  (Hvisible : t <> [])
  (Hfirst : occurs t (a ++ removelast t) = false) :
  (occurs t b = false ->
   sanitize_output cfg (a ++ t ++ b) = Some (a ++ EXPUNGED ++ b)) /\
  (occurs t (b ++ removelast t) = false ->
   sanitize_output cfg (a ++ t ++ b ++ t ++ c)
   = Some (a ++ EXPUNGED ++ b ++ EXPUNGED ++ c)).
Proof.
  rewrite !sanitize_output_active, Htoken. unfold re_sub_escaped, re_I.
  split; intros Hb.
  - rewrite (sub_scan_first t EXPUNGED 1 a b Hvisible Hfirst).
    rewrite (sub_scan_absent t EXPUNGED _ b Hb). reflexivity.
  - rewrite (sub_scan_first t EXPUNGED 1 a (b ++ t ++ c) Hvisible Hfirst).
    rewrite (sub_scan_first t EXPUNGED 0 b c Hvisible Hb).
    destruct c; reflexivity.
Qed.

Lemma sanitize_output_replaces_session :
  active_token (auth MoreSamples.user_session) = Some (lit "s3cret") /\
  lit "s3cret" <> [] /\
  occurs (lit "s3cret") (lit "a=" ++ removelast (lit "s3cret")) = false /\
  occurs (lit "s3cret") (lit " b=" ++ removelast (lit "s3cret")) = false /\
  sanitize_output MoreSamples.user_session
    (lit "a=" ++ lit "s3cret" ++ lit " b=" ++ lit "s3cret"
     ++ lit " c=s3cret")
  = Some (lit "a=" ++ EXPUNGED ++ lit " b=" ++ EXPUNGED ++ lit " c=s3cret").
Proof.
  assert (Hne : lit "s3cret" <> []) by discriminate.
  split; [reflexivity|]. split; [exact Hne|]. split; [reflexivity|].
  split; [reflexivity|].
  exact (proj2 (sanitize_output_replaces MoreSamples.user_session
                  (lit "s3cret") (lit "a=") (lit " b=") (lit " c=s3cret")
                  eq_refl Hne eq_refl) eq_refl).
Defined.

End SanitizeFacts.

(** ** Whole invocations of the console *)

Module ConsoleRuns.

Import PyStrFacts ConsoleFacts SendFacts SanitizeFacts Console Wire.

Section Bot.

Variable cfg : config.
Variable interp : interpreter.

(** For a body that returns [None] and prints nothing visible the console
    sends no reply: after [eval] the world is as the code that was run
    left it, with the stored last result as before. *)
Theorem eval_silent (channel body printed t : str) (msg : message)
  (w : world)
  (Hexec : exec_source interp (to_compile interp body)
             (get_environment msg w)
           = ExecDefined (Returned printed PyNone))
  (Hblank : forallb isspace printed = true)
  (Htoken : active_token (auth cfg) = Some t)
  (Habsent : occurs t printed = false) :
  eval cfg interp channel body msg w
  = perform (exec_effects interp (to_compile interp body)
               (get_environment msg w)) w.
Proof.
  unfold eval. rewrite Hexec. simpl. unfold send_sanitized.
  rewrite (sanitize_absent cfg t printed Htoken Habsent).
  apply send_blocks_blank. exact Hblank.
Qed.

(** For a body that returns a value other than [None] the console sends
    one reply after whatever the code itself did, when the printed output
    followed by the text of the value has a visible character, fits a
    page and does not hold the token: that text, in a code block; and the
    value becomes the stored last result. *)
Theorem eval_replies_once (channel body printed t : str) (result : pyobj)
  (msg : message) (w : world)
  (Hexec : exec_source interp (to_compile interp body)
             (get_environment msg w)
           = ExecDefined (Returned printed result))
  (Hvalue : is_none result = false)
  (Hvisible : existsb notspace (printed ++ py_str result) = true)
  (Hshort : len (printed ++ py_str result) <= 1988)
  (Htoken : active_token (auth cfg) = Some t)
  (Habsent : occurs t (printed ++ py_str result) = false) :
  trace (eval cfg interp channel body msg w)
  = trace w
    ++ exec_effects interp (to_compile interp body) (get_environment msg w)
    ++ [Post channel (json_content (code_block (printed ++ py_str result)))]
  /\ last_result (eval cfg interp channel body msg w) = result.
Proof.
  unfold eval. rewrite Hexec, Hvalue. simpl negb. cbv iota.
  unfold send_sanitized.
  rewrite (sanitize_absent cfg t _ Htoken Habsent).
  split.
  - rewrite (one_page_trace channel _ _ Hvisible Hshort). simpl.
    symmetry. apply app_assoc.
  - rewrite send_blocks_last_result. reflexivity.
Qed.


End Bot.

Lemma eval_silent_closes :
  forallb isspace [] = true /\
  active_token (auth Samples.bang) = Some (lit "abc") /\
  occurs (lit "abc") [] = false /\
  eval Samples.bang MoreSamples.closes (lit "01CHAN")
    (lit "await client.close()")
    (Samples.from_owner (lit "!eval await client.close()")) Samples.fresh
  = perform [Close] Samples.fresh.
Proof.
  split; [reflexivity|]. split; [reflexivity|]. split; [reflexivity|].
  apply (eval_silent Samples.bang MoreSamples.closes (lit "01CHAN")
           (lit "await client.close()") [] (lit "abc")
           (Samples.from_owner (lit "!eval await client.close()"))
           Samples.fresh);
    reflexivity.
Defined.

Lemma eval_replies_once_after_post :
  is_none Samples.forty_two = false /\
  len (lit "out:" ++ py_str Samples.forty_two) <= 1988 /\
  occurs (lit "abc") (lit "out:" ++ py_str Samples.forty_two) = false /\
  trace (eval Samples.bang MoreSamples.posts_and_returns
           (lit "01CHAN") (lit "return 42")
           (Samples.from_owner (lit "!eval return 42")) Samples.fresh)
  = trace Samples.fresh
    ++ [Post (lit "02CHAN") (lit "hi")]
    ++ [Post (lit "01CHAN") (json_content (code_block (lit "out:42")))].
Proof.
  assert (Hshort : len (lit "out:" ++ py_str Samples.forty_two) <= 1988)
    by (vm_compute; discriminate).
  split; [reflexivity|]. split; [exact Hshort|]. split; [reflexivity|].
  exact (proj1 (eval_replies_once Samples.bang MoreSamples.posts_and_returns
                  (lit "01CHAN") (lit "return 42") (lit "out:") (lit "abc")
                  Samples.forty_two
                  (Samples.from_owner (lit "!eval return 42")) Samples.fresh
                  eq_refl eq_refl eq_refl Hshort eq_refl eq_refl)).
Defined.


End ConsoleRuns.

(** ** [better_vars] *)

Module IntrospectionFacts.

Import PyStrFacts Console Introspection.

Lemma dict_get_set (k k' : str) (v : pyobj) (d : dict) :
  dict_get k (dict_set k' v d)
  = if str_eqb k' k then Some v else dict_get k d.
Proof.
  induction d as [|[k0 v0] d IH]; simpl; [reflexivity|].
  destruct (str_eqb k0 k') eqn:E0; simpl.
  - apply str_eqb_eq in E0. subst k0. destruct (str_eqb k' k); reflexivity.
  - rewrite IH. destruct (str_eqb k0 k) eqn:E1; [|reflexivity].
    apply str_eqb_eq in E1. subst k0.
    assert (E2 : str_eqb k' k = false).
    { apply str_eqb_neq. intros ->. rewrite str_eqb_refl in E0.
      discriminate. }
    rewrite E2. reflexivity.
Qed.

Lemma dict_set_keys (k k0 : str) (v : pyobj) (d : dict) :
  In k0 (map fst (dict_set k v d)) <-> k0 = k \/ In k0 (map fst d).
Proof.
  induction d as [|[k1 v1] d IH]; simpl; [intuition|].
  destruct (str_eqb k1 k) eqn:E; simpl.
  - apply str_eqb_eq in E. subst k1. intuition.
  - rewrite IH. intuition.
Qed.

Lemma dict_set_nodup (k : str) (v : pyobj) (d : dict) :
  NoDup (map fst d) -> NoDup (map fst (dict_set k v d)).
Proof.
  induction d as [|[k1 v1] d IH]; simpl; intros H.
  - constructor; [intros [] | constructor].
  - inversion H as [|? ? Hnotin Hd]; subst.
    destruct (str_eqb k1 k) eqn:E; simpl; [constructor; assumption|].
    constructor; [|apply IH; exact Hd].
    rewrite dict_set_keys. intros [->|Hin]; [|contradiction].
    rewrite str_eqb_refl in E. discriminate.
Qed.

Section Object.

Variable obj : instance.

Local Abbreviation collect :=
  (fun (acc : dict) (attr_name : str) =>
     match inst_getattr obj attr_name with
     | Some value => dict_set attr_name value acc
     | None => acc
     end).

Lemma collect_get (name : str) (names : list str) (acc : dict) :
  dict_get name (fold_left collect names acc)
  = if existsb (fun n => str_eqb n name) names
    then match inst_getattr obj name with
         | Some v => Some v
         | None => dict_get name acc
         end
    else dict_get name acc.
Proof.
  revert acc. induction names as [|n names IH]; intros acc; simpl;
    [reflexivity|].
  rewrite IH. destruct (str_eqb n name) eqn:E; simpl.
  - apply str_eqb_eq in E. subst n.
    destruct (inst_getattr obj name) as [v|] eqn:Eg.
    + rewrite dict_get_set, str_eqb_refl.
      destruct (existsb _ names); reflexivity.
    + destruct (existsb _ names); reflexivity.
  - destruct (inst_getattr obj n) as [v|]; [|reflexivity].
    rewrite dict_get_set, E. reflexivity.
Qed.

Lemma collect_nodup (names : list str) (acc : dict) :
  NoDup (map fst acc) -> NoDup (map fst (fold_left collect names acc)).
Proof.
  revert acc. induction names as [|n names IH]; intros acc H; simpl;
    [exact H|].
  apply IH. destruct (inst_getattr obj n); [apply dict_set_nodup|];
    exact H.
Qed.

(** For an object without a [__dict__], [better_vars] has an entry for a
    name exactly when the name is among the slots of a class of the MRO
    and the object has a value for it, and the entry is that value; no
    name has two entries. *)
Theorem better_vars_slots (name : str)
  (Hslots : inst_dict obj = None) :
  dict_get name (better_vars obj)
  = (if existsb (fun n => str_eqb n name) (List.concat (inst_slots obj))
     then inst_getattr obj name
     else None) /\
  NoDup (map fst (better_vars obj)).
Proof.
  unfold better_vars. rewrite Hslots. split.
  - rewrite collect_get. simpl.
    destruct (existsb _ _); [|reflexivity].
    destruct (inst_getattr obj name); reflexivity.
  - apply collect_nodup. constructor.
Qed.

End Object.

Lemma better_vars_slotted :
  inst_dict MoreSamples.slotted = None /\
  dict_get (lit "x") (better_vars MoreSamples.slotted)
  = Some (PyObj (lit "1")) /\
  dict_get (lit "y") (better_vars MoreSamples.slotted) = None /\
  NoDup (map fst (better_vars MoreSamples.slotted)).
Proof.
  split; [reflexivity|].
  destruct (better_vars_slots MoreSamples.slotted (lit "x") eq_refl)
    as [Hx Hnodup].
  destruct (better_vars_slots MoreSamples.slotted (lit "y") eq_refl)
    as [Hy _].
  split; [exact Hx|]. split; [exact Hy | exact Hnodup].
Defined.

End IntrospectionFacts.

(** ** What the router hands to the console *)

Module DispatchFacts.

Import PyStrFacts ConsoleFacts RouterFacts PrefixFacts CleanupFacts.
Import Console Wire.

Lemma split_maxsplit1_unfold (t : str) :
  t <> [] -> dropwhile isspace t = t ->
  split_maxsplit1 t
  = takewhile notspace t ::
    match dropwhile isspace (dropwhile notspace t) with
    | [] => []
    | r => [r]
    end.
Proof.
  intros Hne Hd. unfold split_maxsplit1. rewrite Hd.
  destruct t; [contradiction | reflexivity].
Qed.

Lemma dropwhile_fixed (p : char -> bool) (s : str) :
  match s with [] => true | c :: _ => negb (p c) end = true ->
  dropwhile p s = s.
Proof.
  destruct s as [|c s]; simpl; [reflexivity|].
  destruct (p c); [discriminate | reflexivity].
Qed.

(** A command word, whitespace, and a body that begins with a visible
    character split into the word and the body; the body keeps whatever
    it ends with. *)
Lemma split_maxsplit1_two (command ws body : str) :
  command <> [] -> has_whitespace command = false ->
  ws <> [] -> forallb isspace ws = true ->
  body <> [] -> next_isspace body = false ->
  split_maxsplit1 (command ++ ws ++ body) = [command; body].
Proof.
  intros Hc Hvis Hws Hblank Hb Hbody.
  assert (Hnext : next_isspace (ws ++ body) = true).
  { destruct ws as [|x ws]; [contradiction|]. simpl in *.
    apply andb_true_iff in Hblank. tauto. }
  assert (Hbody' : dropwhile isspace body = body).
  { apply dropwhile_fixed. destruct body as [|y body]; [reflexivity|].
    simpl in Hbody. rewrite Hbody. reflexivity. }
  rewrite split_maxsplit1_unfold.
  - rewrite (takewhile_notspace_app command (ws ++ body) Hvis
               (or_intror Hnext)).
    rewrite (dropwhile_app_all notspace command (ws ++ body)
               (dropwhile_notspace_visible command Hvis)).
    rewrite (dropwhile_fixed notspace (ws ++ body)).
    + rewrite (dropwhile_app_all isspace ws body
                 (forallb_dropwhile_nil isspace ws Hblank)).
      rewrite Hbody'. destruct body; [contradiction | reflexivity].
    + destruct (ws ++ body) as [|x r]; [reflexivity|].
      simpl in Hnext. unfold notspace. rewrite Hnext. reflexivity.
  - destruct command; [contradiction | discriminate].
  - apply dropwhile_fixed. destruct command as [|c command];
      [contradiction|]. simpl.
    unfold has_whitespace in Hvis. simpl in Hvis.
    destruct (isspace c); [discriminate | reflexivity].
Qed.

Section Bot.

Variable cfg : config.
Variable interp : interpreter.

(** With a prefix free of whitespace, the owner's [eval] or [debug]
    followed by whitespace and a body that begins with a visible character
    runs the console on exactly that body, trailing whitespace included. *)
Theorem on_message_hands_body (msg : message) (w : world) (ws body : str)
  (Howner : author_id msg = owner_id cfg)
  (Hprefix : has_whitespace (PREFIX cfg) = false)
  (Hws : ws <> [] /\ forallb isspace ws = true)
  (Hbody : body <> [] /\ next_isspace body = false) :
  (content msg = Some ((PREFIX cfg ++ lit "eval") ++ ws ++ body) ->
   on_message cfg interp msg w
   = eval cfg interp (channel_id msg) body msg w) /\
  (content msg = Some ((PREFIX cfg ++ lit "debug") ++ ws ++ body) ->
   on_message cfg interp msg w
   = debug cfg interp (channel_id msg) body msg w).
Proof.
  destruct Hws as [Hws Hblank]. destruct Hbody as [Hb Hbody].
  assert (Hsplit : forall word, word <> [] -> has_whitespace word = false ->
            split_maxsplit1 ((PREFIX cfg ++ word) ++ ws ++ body)
            = [PREFIX cfg ++ word; body]).
  { intros word Hw Hvis. apply split_maxsplit1_two; auto.
    - destruct (PREFIX cfg); [exact Hw | discriminate].
    - rewrite has_whitespace_app, Hprefix, Hvis. reflexivity. }
  assert (Hlen : (len body =? 0) = false).
  { destruct body; [contradiction | reflexivity]. }
  split; intros Htext; unfold on_message;
    rewrite Howner, str_eqb_refl, Htext, Hsplit
      by (discriminate || reflexivity);
    rewrite !command_eqb, Hlen; reflexivity.
Qed.

End Bot.

Lemma on_message_hands_body_print :
  (lit "  " <> [] /\ forallb isspace (lit "  ") = true) /\
  (lit "print(1) " <> [] /\ next_isspace (lit "print(1) ") = false) /\
  content (Samples.from_owner (lit "!eval  print(1) "))
  = Some ((PREFIX Samples.bang ++ lit "eval") ++ lit "  " ++ lit "print(1) ")
  /\
  on_message Samples.bang Samples.quiet
    (Samples.from_owner (lit "!eval  print(1) ")) Samples.fresh
  = eval Samples.bang Samples.quiet (lit "01CHAN") (lit "print(1) ")
      (Samples.from_owner (lit "!eval  print(1) ")) Samples.fresh.
Proof.
  assert (Hws : lit "  " <> [] /\ forallb isspace (lit "  ") = true)
    by (split; [discriminate | reflexivity]).
  assert (Hbody : lit "print(1) " <> [] /\
                  next_isspace (lit "print(1) ") = false)
    by (split; [discriminate | reflexivity]).
  split; [exact Hws|]. split; [exact Hbody|]. split; [reflexivity|].
  exact (proj1 (on_message_hands_body Samples.bang Samples.quiet
                  (Samples.from_owner (lit "!eval  print(1) "))
                  Samples.fresh (lit "  ") (lit "print(1) ")
                  eq_refl eq_refl Hws Hbody) eq_refl).
Defined.

Lemma load_prefix_visible_bang :
  lit "!" <> [] /\ has_whitespace (lit "!") = false /\
  load_prefix (Some (lit "!")) = Proceeds (lit "!").
Proof.
  split; [discriminate|]. split; [reflexivity|].
  apply (load_prefix_visible (lit "!")); [discriminate | reflexivity].
Defined.

End DispatchFacts.
